(** * Ripple AI submission form: a model of [src/App.tsx]

    The page keeps four pieces of React state ([username], [message],
    [isLoading], [status]) and one asynchronous event handler,
    [handleSubmit].  The handler is embedded as a term of a small
    resumption monad [Async]: synchronous calls (the state setters,
    [e.preventDefault()]) are recorded in order, and each [await] is a
    suspension point whose continuation receives the settled promise.
    Two interpreters are given: [run], which drives one handler
    invocation to completion against a network answer, and [step], an
    event loop in which submissions, keystrokes, promise settlements
    and renders interleave; a handler there is closed over the state of
    the last render, not over the state the setters have since left. *)

From Stdlib Require Import String Ascii List Bool Arith ZArith Lia.
From Stdlib Require Import DecimalString.
Import ListNotations.
Local Open Scope list_scope.
Local Open Scope string_scope.

(** ** Strings and the JSON text sent on the wire *)

(** The double quote and the reverse solidus, by code. *)
Definition dquote : ascii := "034"%char.
Definition rsolidus : ascii := "092"%char.

Definition DQ : string := String dquote EmptyString.

(** JavaScript truthiness of a string: only the empty string is falsy. *)
Definition string_truthy (s : string) : bool :=
  match s with
  | EmptyString => false
  | String _ _ => true
  end.

Definition hex_digit (n : nat) : ascii :=
  nth n [ "0"; "1"; "2"; "3"; "4"; "5"; "6"; "7"; "8"; "9";
          "a"; "b"; "c"; "d"; "e"; "f" ]%char "0"%char.

(** [QuoteJSONString], one code unit at a time.  A [string] here is the
    UTF-8 text of a well-formed JavaScript string, so units of 128 and
    above are copied as they are. *)
Definition JSON_escape (c : ascii) : string :=
  let n := nat_of_ascii c in
  if (n =? 8)%nat then String rsolidus "b"
  else if (n =? 9)%nat then String rsolidus "t"
  else if (n =? 10)%nat then String rsolidus "n"
  else if (n =? 12)%nat then String rsolidus "f"
  else if (n =? 13)%nat then String rsolidus "r"
  else if (n =? 34)%nat then String rsolidus DQ
  else if (n =? 92)%nat then String rsolidus (String rsolidus EmptyString)
  else if (n <? 32)%nat then
    String rsolidus ("u00" ++ String (hex_digit (n / 16))
                                (String (hex_digit (n mod 16)) EmptyString))
  else String c EmptyString.

Fixpoint JSON_escape_all (s : string) : string :=
  match s with
  | EmptyString => EmptyString
  | String c s' => JSON_escape c ++ JSON_escape_all s'
  end.

Definition JSON_quote (s : string) : string :=
  DQ ++ JSON_escape_all s ++ DQ.

Definition JSON_member (kv : string * string) : string :=
  JSON_quote (fst kv) ++ ":" ++ JSON_quote (snd kv).

Fixpoint JSON_members (kvs : list (string * string)) : string :=
  match kvs with
  | [] => EmptyString
  | [kv] => JSON_member kv
  | kv :: rest => JSON_member kv ++ "," ++ JSON_members rest
  end.

(** A character that [QuoteJSONString] copies unchanged, and a string
    made of such characters. *)
Definition plain_char (c : ascii) : bool :=
  let n := nat_of_ascii c in
  (32 <=? n)%nat && negb (n =? 34)%nat && negb (n =? 92)%nat.

Fixpoint plain (s : string) : bool :=
  match s with
  | EmptyString => true
  | String c s' => plain_char c && plain s'
  end.

(** [JSON.stringify] of an object literal whose properties all hold
    strings, in property order; the only shape it is called on. *)
Definition JSON_stringify (obj : list (string * string)) : string :=
  "{" ++ JSON_members obj ++ "}".

(** ** JavaScript values *)

#[local] Set Warnings "-register-all".

Module JS.

(** The values a parsed JSON body can hold, and [undefined], over the
    engine's type of numbers. *)
Inductive value (number : Type) : Type :=
| Undefined
| Null
| Boolean (b : bool)
| Num (n : number)
| Str (s : string)
| Arr (items : list (value number))
| Obj (props : list (string * value number)).
Arguments Undefined {number}.
Arguments Null {number}.
Arguments Boolean {number} b.
Arguments Num {number} n.
Arguments Str {number} s.
Arguments Arr {number} items.
Arguments Obj {number} props.

(** A thrown value is an [Error] instance carrying a message, or any
    other value. *)
Inductive thrown (number : Type) : Type :=
| ErrorObject (msg : string)
| NonError (v : value number).
Arguments ErrorObject {number} msg.
Arguments NonError {number} v.

(** A promise once settled. *)
Inductive settled (number : Type) (A : Type) : Type :=
| Fulfilled (a : A)
| Rejected (e : thrown number).
Arguments Fulfilled {number A} a.
Arguments Rejected {number A} e.

End JS.

Import JS.

(** An engine whose numbers are the integers, with the error texts of
    V8; the concrete runs further down use it. *)
Module IntegerEngine.

Definition number : Type := Z.

Definition number_truthy (n : Z) : bool := negb (Z.eqb n 0).

Definition number_toString (n : Z) : string :=
  NilZero.string_of_int (Z.to_int n).

Definition null_read_message : string :=
  "Cannot read properties of null (reading 'status')".

Definition has_own (key : string) (props : list (string * value Z)) : bool :=
  existsb (fun kv => String.eqb (fst kv) key) props.

Fixpoint join_with (sep : string) (parts : list string) : string :=
  match parts with
  | [] => EmptyString
  | [p] => p
  | p :: rest => p ++ sep ++ join_with sep rest
  end.

(** [ToString] on the values of a parsed body.  An array joins its
    elements, with nothing for [null] and [undefined]; an object is
    [[object Object]] unless an own [toString] property, which cannot
    be callable, makes the conversion throw. *)
Fixpoint ToString (v : value Z) : thrown Z + string :=
  match v with
  | Undefined => inr "undefined"
  | Null => inr "null"
  | Boolean b => inr (if b then "true" else "false")
  | Num n => inr (number_toString n)
  | Str s => inr s
  | Arr items =>
      let fix each (l : list (value Z)) : thrown Z + list string :=
        match l with
        | [] => inr []
        | item :: rest =>
            let part :=
              match item with
              | Undefined | Null => inr EmptyString
              | _ => ToString item
              end in
            match part, each rest with
            | inl e, _ => inl e
            | inr _, inl e => inl e
            | inr s, inr ss => inr (s :: ss)
            end
        end in
      match each items with
      | inl e => inl e
      | inr parts => inr (join_with "," parts)
      end
  | Obj props =>
      if has_own "toString" props
      then inl (ErrorObject "Cannot convert object to primitive value")
      else inr "[object Object]"
  end.

End IntegerEngine.

(** ** Reading a quoted string back *)

(** The reader of the string literals that [JSON_quote] writes; the
    proofs use it to tell two request bodies apart. *)
Definition hex_value (c : ascii) : option nat :=
  let n := nat_of_ascii c in
  if (48 <=? n)%nat && (n <=? 57)%nat then Some (n - 48)
  else if (97 <=? n)%nat && (n <=? 102)%nat then Some (n - 87)
  else None.

Definition simple_escape (e : ascii) : option ascii :=
  let n := nat_of_ascii e in
  if (n =? 98)%nat then Some "008"%char
  else if (n =? 116)%nat then Some "009"%char
  else if (n =? 110)%nat then Some "010"%char
  else if (n =? 102)%nat then Some "012"%char
  else if (n =? 114)%nat then Some "013"%char
  else if (n =? 34)%nat then Some dquote
  else if (n =? 92)%nat then Some rsolidus
  else None.

Definition prepend (c : ascii) (r : option (string * string))
  : option (string * string) :=
  match r with
  | Some (s, rest) => Some (String c s, rest)
  | None => None
  end.

(** [JSON_read_chars s] reads escaped characters up to the closing
    quote and gives the string read and the text after the quote. *)
Fixpoint JSON_read_chars (s : string) : option (string * string) :=
  match s with
  | EmptyString => None
  | String c s1 =>
      if Ascii.eqb c dquote then Some (EmptyString, s1)
      else if Ascii.eqb c rsolidus then
        match s1 with
        | EmptyString => None
        | String e s2 =>
            match simple_escape e with
            | Some d => prepend d (JSON_read_chars s2)
            | None =>
                if Ascii.eqb e "u" then
                  match s2 with
                  | String a (String b (String x (String y s3))) =>
                      match hex_value a, hex_value b,
                            hex_value x, hex_value y with
                      | Some 0, Some 0, Some h, Some l =>
                          prepend (ascii_of_nat (16 * h + l))
                                  (JSON_read_chars s3)
                      | _, _, _, _ => None
                      end
                  | _ => None
                  end
                else None
            end
        end
      else prepend c (JSON_read_chars s1)
  end.

(** ** The page, over any engine *)

Section Engine.

(** What the engine fixes and the page does not: the numbers with their
    truthiness, the conversion to a string of a value that is not one
    (it may throw), and the message of the [TypeError] that a property
    read on [null] raises. *)
Variable number : Type.
Variable number_truthy : number -> bool.

Local Abbreviation value := (JS.value number).
Local Abbreviation thrown := (JS.thrown number).
Local Abbreviation settled := (JS.settled number).

Variable ToString_other : value -> thrown + string.
Variable null_read_message : string.

Definition truthy (v : value) : bool :=
  match v with
  | Undefined | Null => false
  | Boolean b => b
  | Num n => number_truthy n
  | Str s => string_truthy s
  | Arr _ | Obj _ => true
  end.

(** [a || b] *)
Definition or_else (a b : value) : value :=
  if truthy a then a else b.

Fixpoint lookup (key : string) (props : list (string * value)) : value :=
  match props with
  | [] => Undefined
  | (k, v) :: rest => if String.eqb k key then v else lookup key rest
  end.

(** [v.key]: a property read.  It throws a [TypeError] on [null] and
    [undefined]; a primitive or an array has no such property. *)
Definition get_property (v : value) (key : string) : settled value :=
  match v with
  | Undefined | Null => Rejected (ErrorObject null_read_message)
  | Obj props => Fulfilled (lookup key props)
  | Boolean _ | Num _ | Str _ | Arr _ => Fulfilled Undefined
  end.

(** [new Error(v)]: the message is [ToString v], absent for [undefined]. *)
Definition new_Error (v : value) : settled thrown :=
  match v with
  | Undefined => Fulfilled (ErrorObject EmptyString)
  | Str s => Fulfilled (ErrorObject s)
  | _ => match ToString_other v with
         | inr s => Fulfilled (ErrorObject s)
         | inl e => Rejected e
         end
  end.

(** *** The network *)

(** The second argument of [fetch]. *)
Record request_init : Type := {
  method : string;
  headers : list (string * string);
  body : string
}.

(** The [Response] object as the page uses it: the [ok] flag and what
    the promise returned by [response.json()] settles to. *)
Record response : Type := {
  ok : bool;
  json : settled value
}.

(** *** Component state *)

Record state : Type := {
  username : string;
  message : string;
  isLoading : bool;
  status : value
}.

(** The four [useState] initial values. *)
Definition initial_state : state :=
  {| username := EmptyString; message := EmptyString;
     isLoading := false; status := Str EmptyString |}.

(** The calls a handler makes on the outside world, as they appear in
    the source. *)
Inductive call : Type :=
| preventDefault
| setUsername (s : string)
| setMessage (s : string)
| setIsLoading (b : bool)
| setStatus (v : value)
| fetch (url : string) (init : request_init).

(** A setter replaces its field; the other calls leave the state alone. *)
Definition apply_call (st : state) (c : call) : state :=
  match c with
  | preventDefault => st
  | setUsername s =>
      {| username := s; message := message st;
         isLoading := isLoading st; status := status st |}
  | setMessage s =>
      {| username := username st; message := s;
         isLoading := isLoading st; status := status st |}
  | setIsLoading b =>
      {| username := username st; message := message st;
         isLoading := b; status := status st |}
  | setStatus v =>
      {| username := username st; message := message st;
         isLoading := isLoading st; status := v |}
  | fetch _ _ => st
  end.

Definition apply_calls (st : state) (cs : list call) : state :=
  fold_left apply_call cs st.

(** The requests among a list of calls. *)
Fixpoint requests (cs : list call) : list (string * request_init) :=
  match cs with
  | [] => []
  | fetch url init :: rest => (url, init) :: requests rest
  | _ :: rest => requests rest
  end.

(** *** Asynchronous functions *)

(** The body of an [async] function: it returns, throws, makes a
    synchronous call and goes on, or awaits a promise.  [AwaitFetch] is
    [await fetch(url, init)]: the request is issued and the function
    suspends until the promise settles.  [AwaitJson] is
    [await response.json()]. *)
Inductive Async (A : Type) : Type :=
| Return (a : A)
| Throw (e : thrown)
| Call (c : call) (k : Async A)
| AwaitFetch (url : string) (init : request_init)
             (k : settled response -> Async A)
| AwaitJson (r : response) (k : settled value -> Async A).
Arguments Return {A} a.
Arguments Throw {A} e.
Arguments Call {A} c k.
Arguments AwaitFetch {A} url init k.
Arguments AwaitJson {A} r k.

Fixpoint bind {A B : Type} (m : Async A) (f : A -> Async B) : Async B :=
  match m with
  | Return a => f a
  | Throw e => Throw e
  | Call c k => Call c (bind k f)
  | AwaitFetch url init k => AwaitFetch url init (fun r => bind (k r) f)
  | AwaitJson r k => AwaitJson r (fun d => bind (k d) f)
  end.

(** [try { m } catch (error) { h error }] *)
Fixpoint try_catch {A : Type} (m : Async A) (h : thrown -> Async A)
  : Async A :=
  match m with
  | Return a => Return a
  | Throw e => h e
  | Call c k => Call c (try_catch k h)
  | AwaitFetch url init k =>
      AwaitFetch url init (fun r => try_catch (k r) h)
  | AwaitJson r k => AwaitJson r (fun d => try_catch (k d) h)
  end.

(** [try { m } finally { f }]: [f] runs on both exits and the exit of
    [m] is kept unless [f] itself throws. *)
Fixpoint try_finally {A : Type} (m : Async A) (f : Async unit) : Async A :=
  match m with
  | Return a => bind f (fun _ => Return a)
  | Throw e => bind f (fun _ => Throw e)
  | Call c k => Call c (try_finally k f)
  | AwaitFetch url init k =>
      AwaitFetch url init (fun r => try_finally (k r) f)
  | AwaitJson r k => AwaitJson r (fun d => try_finally (k d) f)
  end.

(** A settled promise seen through [await]: its value, or a throw. *)
Definition of_settled {A : Type} (s : settled A) : Async A :=
  match s with
  | Fulfilled a => Return a
  | Rejected e => Throw e
  end.

Definition do (c : call) : Async unit := Call c (Return tt).

Definition await_fetch (url : string) (init : request_init)
  : Async response :=
  AwaitFetch url init of_settled.

Definition await_json (r : response) : Async value :=
  AwaitJson r of_settled.

Declare Scope async_scope.
Delimit Scope async_scope with async.
Notation "x <- m ;; k" := (bind m (fun x => k))
  (at level 61, m at next level, right associativity) : async_scope.
Notation "m ;; k" := (bind m (fun _ => k))
  (at level 61, right associativity) : async_scope.
Local Open Scope async_scope.

(** *** [App] *)

Definition API_URL : string := "http://localhost:5000/send-dm".

(** The [init] object handed to [fetch]. *)
Definition fetch_init (props : state) : request_init :=
  {| method := "POST";
     headers := [("Content-Type", "application/json")];
     body := JSON_stringify [("username", username props);
                             ("message", message props)] |}.

(** The [try] block, cut at its two [await]s: [use_data] is what
    follows [await response.json()], [handle_response] what follows
    [await fetch(...)]. *)
Definition use_data (response : response) (data : value) : Async unit :=
  (if negb (ok response) then
     s <- of_settled (get_property data "status") ;;
     err <- of_settled (new_Error (or_else s (Str "An error occurred."))) ;;
     Throw err
   else Return tt) ;;
  s <- of_settled (get_property data "status") ;;
  do (setStatus s) ;;
  do (setMessage EmptyString).

Definition handle_response (response : response) : Async unit :=
  data <- await_json response ;;
  use_data response data.

Definition try_block (props : state) : Async unit :=
  response <- await_fetch API_URL (fetch_init props) ;;
  handle_response response.

(** The [catch] clause. *)
Definition catch_clause (error : thrown) : Async unit :=
  match error with
  | ErrorObject msg => do (setStatus (Str ("Error: " ++ msg)))
  | NonError _ => do (setStatus (Str "An unknown error occurred."))
  end.

(** The [finally] block. *)
Definition finally_block : Async unit :=
  do (setIsLoading false).

(** [handleSubmit], closed over the state of the render that created
    it. *)
Definition handleSubmit (props : state) : Async unit :=
  do preventDefault ;;
  if negb (string_truthy (message props)) || isLoading props then Return tt
  else
    do (setIsLoading true) ;;
    do (setStatus (Str "Sending...")) ;;
    try_finally (try_catch (try_block props) catch_clause) finally_block.

(** Whether React accepts [v] as a child of an element: a string, a
    number, a boolean, [null] and [undefined] are accepted, a plain
    object is not, and an array is when each of its items is. *)
Fixpoint renderable (v : value) : bool :=
  match v with
  | Obj _ => false
  | Arr items => forallb renderable items
  | Undefined | Null | Boolean _ | Num _ | Str _ => true
  end.

(** What [{status && <p className="statusMessage">{status}</p>}] puts
    on the page: the paragraph when [status] is truthy; otherwise the
    falsy value itself, which React prints when it is a number and
    skips when it is [undefined], [null], [false] or the empty
    string. *)
Inductive status_slot : Type :=
| NoStatus
| BareNumber (n : number)
| StatusLine (v : value).

Definition status_region (status : value) : status_slot :=
  if truthy status then StatusLine status
  else match status with
       | Num n => BareNumber n
       | _ => NoStatus
       end.

(** What the JSX shows of the state: the two inputs and the button are
    disabled while loading, the button shows dots instead of the arrow,
    and the status region is as above. *)
Record view : Type := {
  usernameInput_value : string;
  usernameInput_disabled : bool;
  messageInput_value : string;
  messageInput_disabled : bool;
  submitButton_disabled : bool;
  submitButton_dots : bool;
  statusMessage : status_slot
}.

(** Rendering [App].  It throws, and gives no view, when the status
    paragraph is asked to show a value that React cannot render. *)
Definition render (st : state) : option view :=
  if truthy (status st) && negb (renderable (status st)) then None
  else Some
    {| usernameInput_value := username st;
       usernameInput_disabled := isLoading st;
       messageInput_value := message st;
       messageInput_disabled := isLoading st;
       submitButton_disabled := isLoading st;
       submitButton_dots := isLoading st;
       statusMessage := status_region (status st) |}.

(** *** One invocation, run to completion *)

(** [run net m] drives [m] to its end: [net] settles each [fetch], the
    body promise settles as the response says.  The result is the calls
    made, in order, and how the function's own promise settles. *)
Fixpoint run {A : Type} (net : string -> request_init -> settled response)
    (m : Async A) : list call * settled A :=
  match m with
  | Return a => ([], Fulfilled a)
  | Throw e => ([], Rejected e)
  | Call c k => let (cs, r) := run net k in (c :: cs, r)
  | AwaitFetch url init k =>
      let (cs, r) := run net (k (net url init)) in (fetch url init :: cs, r)
  | AwaitJson resp k => run net (k (json resp))
  end.

(** The calls of one submission whose request is answered by [answer]. *)
Definition submission_calls (answer : settled response) (st : state)
  : list call :=
  fst (run (fun _ _ => answer) (handleSubmit st)).

(** The state once that submission has completed. *)
Definition submit (answer : settled response) (st : state) : state :=
  apply_calls st (submission_calls answer st).

(** *** The event loop *)

(** A suspended invocation: waiting for the network, or for the body of
    a response. *)
Inductive task : Type :=
| OnFetch (k : settled response -> Async unit)
| OnJson (r : response) (k : settled value -> Async unit).

(** Run synchronously up to the next [await]. *)
Fixpoint advance (m : Async unit) : list call * option task :=
  match m with
  | Return _ => ([], None)
  | Throw _ => ([], None)
  | Call c k => let (cs, t) := advance k in (c :: cs, t)
  | AwaitFetch url init k => ([fetch url init], Some (OnFetch k))
  | AwaitJson r k => ([], Some (OnJson r k))
  end.

(** The page between two events.  [ui] is the component state as the
    setter calls have left it, which the next render will read.  [page]
    is the state that the last render read: the handlers on the page
    and the [disabled] attributes are those of that render, so a
    handler sees [page], not [ui], until the page renders again.
    [page] is [None] once a render has thrown and React has unmounted
    the page. *)
Record world : Type := {
  ui : state;
  page : option state;
  pending : list task;
  sent : list (string * request_init)
}.

Definition initial_world : world :=
  {| ui := initial_state; page := Some initial_state;
     pending := []; sent := [] |}.

Inductive event : Type :=
| Submit
| ChangeUsername (s : string)
| ChangeMessage (s : string)
| FetchSettled (i : nat) (r : settled response)
| JsonSettled (i : nat)
| Render.

Definition option_list {A : Type} (o : option A) : list A :=
  match o with
  | Some a => [a]
  | None => []
  end.

Fixpoint remove_nth {A : Type} (i : nat) (l : list A) : list A :=
  match l, i with
  | [], _ => []
  | _ :: rest, O => rest
  | a :: rest, S j => a :: remove_nth j rest
  end.

(** Run a piece of handler code in world [w]: its setters update the
    state, its requests go out, and it is queued if it suspends. *)
Definition deliver (w : world) (m : Async unit) : world :=
  let (cs, t) := advance m in
  {| ui := apply_calls (ui w) cs;
     page := page w;
     pending := (pending w ++ option_list t)%list;
     sent := (sent w ++ requests cs)%list |}.

Definition without_task (i : nat) (w : world) : world :=
  {| ui := ui w; page := page w;
     pending := remove_nth i (pending w); sent := sent w |}.

(** One turn of the event loop.  A submit or change event runs the
    handler of the last render, whatever the state has become since;
    the handlers themselves do not look at [disabled].  An unmounted
    page has no handlers.  A settlement resumes the task it names, and
    does nothing if there is none; its setter calls are kept in [ui]
    even when the page is gone, where nothing reads them.  [Render]
    renders the current state, or unmounts the page if that throws. *)
Definition step (w : world) (ev : event) : world :=
  match ev with
  | Submit =>
      match page w with
      | Some props => deliver w (handleSubmit props)
      | None => w
      end
  | ChangeUsername s =>
      match page w with
      | Some _ => deliver w (do (setUsername s))
      | None => w
      end
  | ChangeMessage s =>
      match page w with
      | Some _ => deliver w (do (setMessage s))
      | None => w
      end
  | FetchSettled i r =>
      match nth_error (pending w) i with
      | Some (OnFetch k) => deliver (without_task i w) (k r)
      | _ => w
      end
  | JsonSettled i =>
      match nth_error (pending w) i with
      | Some (OnJson resp k) => deliver (without_task i w) (k (json resp))
      | _ => w
      end
  | Render =>
      match page w with
      | Some _ =>
          {| ui := ui w;
             page := match render (ui w) with
                     | Some _ => Some (ui w)
                     | None => None
                     end;
             pending := pending w;
             sent := sent w |}
      | None => w
      end
  end.

Definition steps (w : world) (evs : list event) : world :=
  fold_left step evs w.

Definition reachable (w : world) : Prop :=
  exists evs, w = steps initial_world evs.

Definition is_Submit (ev : event) : bool :=
  match ev with
  | Submit => true
  | _ => false
  end.

(** An event sequence in which the page renders right after every
    submit event, as React does when it flushes the updates of a
    submit handler before the next event is handled. *)
Definition flushed (evs : list event) : list event :=
  flat_map (fun ev => if is_Submit ev then [Submit; Render] else [ev]) evs.

Definition reachable_flushed (w : world) : Prop :=
  exists evs, w = steps initial_world (flushed evs).

Definition is_OnFetch (t : task) : bool :=
  match t with
  | OnFetch _ => true
  | OnJson _ _ => false
  end.

(** The requests sent and not yet answered. *)
Definition outstanding (w : world) : nat :=
  length (filter is_OnFetch (pending w)).

(** *** Vocabulary of the proofs *)

(** The guard of [handleSubmit] lets a submission through. *)
Definition passes_guard (st : state) : Prop :=
  message st <> EmptyString /\ isLoading st = false.

(** The calls that precede the request. *)
Definition prologue : list call :=
  [preventDefault; setIsLoading true; setStatus (Str "Sending...")].

(** The part of [handleSubmit] under [try]/[catch]/[finally], and what
    is left of it at each of its two suspension points. *)
Definition attempt (st : state) : Async unit :=
  try_finally (try_catch (try_block st) catch_clause) finally_block.

Definition after_fetch (r : settled response) : Async unit :=
  try_finally
    (try_catch (response <- of_settled r ;; handle_response response)
       catch_clause)
    finally_block.

Definition after_json (resp : response) (d : settled value) : Async unit :=
  try_finally
    (try_catch (data <- of_settled d ;; use_data resp data) catch_clause)
    finally_block.

(** What the [catch] clause displays for a thrown value. *)
Definition error_text (e : thrown) : value :=
  match e with
  | ErrorObject msg => Str ("Error: " ++ msg)
  | NonError _ => Str "An unknown error occurred."
  end.

(** How an attempt ends: with a status shown and the message field
    cleared, or in the [catch] clause. *)
Inductive ending : Type :=
| Shown (v : value)
| Failed (e : thrown).

Definition ending_calls (x : ending) : list call :=
  match x with
  | Shown v => [setStatus v; setMessage EmptyString; setIsLoading false]
  | Failed e => [setStatus (error_text e); setIsLoading false]
  end.

Definition ending_of_body (resp : response) (d : settled value) : ending :=
  match d with
  | Rejected e => Failed e
  | Fulfilled data =>
      match get_property data "status" with
      | Rejected e => Failed e
      | Fulfilled s =>
          if ok resp then Shown s
          else match new_Error (or_else s (Str "An error occurred.")) with
               | Fulfilled err => Failed err
               | Rejected e => Failed e
               end
      end
  end.

Definition ending_of (answer : settled response) : ending :=
  match answer with
  | Rejected e => Failed e
  | Fulfilled resp => ending_of_body resp (json resp)
  end.

(** Code with no [await] left in it: a run of calls. *)
Definition straight (cs : list call) : Async unit :=
  fold_right Call (Return tt) cs.


(** The tasks that [handleSubmit] leaves behind at its two [await]s. *)
Inductive handler_task : task -> Prop :=
| task_fetch : handler_task (OnFetch after_fetch)
| task_json resp : handler_task (OnJson resp (after_json resp)).

(** The invariant of the event loop under any interleaving. *)
Definition handler_tasks (w : world) : Prop :=
  Forall handler_task (pending w).

(** The invariant when every submit is followed by a render: at most
    one task is pending, one is pending exactly while the in-flight
    flag is up, the status text is then [Sending...], and a page that
    shows the flag down has nothing pending. *)
Definition one_at_a_time (w : world) : Prop :=
  handler_tasks w /\
  length (pending w) <= 1 /\
  (pending w <> [] <-> isLoading (ui w) = true) /\
  (pending w <> [] -> status (ui w) = Str "Sending...") /\
  (forall st, page w = Some st -> isLoading st = false -> pending w = []).

(** *** Vocabulary of the further properties *)

(** The request that the page is written to send, whatever its body. *)
Definition is_post_to_API (r : string * request_init) : Prop :=
  fst r = API_URL /\
  method (snd r) = "POST" /\
  headers (snd r) = [("Content-Type", "application/json")].

(** A request whose answer is a failure for [handleSubmit]: the
    [fetch] promise rejects, the response is not [ok], or its body
    does not parse. *)
Definition is_failure (answer : settled response) : bool :=
  match answer with
  | Rejected _ => true
  | Fulfilled resp =>
      negb (ok resp) ||
      match json resp with
      | Rejected _ => true
      | Fulfilled _ => false
      end
  end.

(** Submit and render events. *)
Definition is_Submit_or_Render (ev : event) : bool :=
  match ev with
  | Submit | Render => true
  | _ => false
  end.

(** ** The shape of a submission *)

Lemma string_truthy_true (s : string) :
  s <> EmptyString -> string_truthy s = true.
Proof. destruct s; [congruence | reflexivity]. Qed.

Lemma guard_open (st : state) :
  passes_guard st ->
  negb (string_truthy (message st)) || isLoading st = false.
Proof.
  intros [Hm Hl]. rewrite (string_truthy_true _ Hm), Hl. reflexivity.
Qed.

Lemma append_assoc (a b c : string) : (a ++ b) ++ c = a ++ b ++ c.
Proof. induction a as [|x a IH]; cbn; [reflexivity | now rewrite IH]. Qed.

(** Text without quotes, reverse solidi or control characters is sent
    as typed, between two quotes. *)
Lemma JSON_escape_plain (c : ascii) :
  plain_char c = true -> JSON_escape c = String c EmptyString.
Proof.
  destruct c as [[] [] [] [] [] [] [] []]; intros H;
    solve [reflexivity | discriminate H].
Qed.

Lemma JSON_quote_plain (s : string) :
  plain s = true -> JSON_quote s = DQ ++ s ++ DQ.
Proof.
  intros H. unfold JSON_quote. f_equal. f_equal.
  induction s as [|c s IH]; [reflexivity|].
  cbn [plain] in H. apply andb_prop in H as [Hc Hs].
  cbn [JSON_escape_all]. rewrite (JSON_escape_plain _ Hc), (IH Hs).
  reflexivity.
Qed.

(** The body of the request, written out. *)
Lemma fetch_init_body (st : state) :
  body (fetch_init st) =
  "{" ++ DQ ++ "username" ++ DQ ++ ":" ++ JSON_quote (username st)
  ++ "," ++ DQ ++ "message" ++ DQ ++ ":" ++ JSON_quote (message st) ++ "}".
Proof.
  unfold fetch_init, JSON_stringify, JSON_members, JSON_member, JSON_quote.
  cbn [body fst snd].
  repeat rewrite append_assoc. reflexivity.
Qed.

Arguments fetch_init : simpl never.

Lemma attempt_awaits (st : state) :
  attempt st = AwaitFetch API_URL (fetch_init st) after_fetch.
Proof. reflexivity. Qed.

Lemma after_fetch_fulfilled (resp : response) :
  after_fetch (Fulfilled resp) = AwaitJson resp (after_json resp).
Proof. reflexivity. Qed.

Lemma handleSubmit_open (st : state) :
  passes_guard st ->
  handleSubmit st =
  Call preventDefault
    (Call (setIsLoading true)
       (Call (setStatus (Str "Sending...")) (attempt st))).
Proof.
  intros G. unfold handleSubmit. cbn [bind do].
  rewrite (guard_open _ G). reflexivity.
Qed.

Lemma handleSubmit_closed (st : state) :
  negb (string_truthy (message st)) || isLoading st = true ->
  handleSubmit st = Call preventDefault (Return tt).
Proof.
  intros G. unfold handleSubmit. cbn [bind do].
  rewrite G. reflexivity.
Qed.

Lemma run_straight net (cs : list call) :
  run net (straight cs) = (cs, Fulfilled tt).
Proof.
  induction cs as [|c cs IH]; [reflexivity|].
  cbn [straight fold_right run]. fold (straight cs). now rewrite IH.
Qed.

Lemma advance_straight (cs : list call) : advance (straight cs) = (cs, None).
Proof.
  induction cs as [|c cs IH]; [reflexivity|].
  cbn [straight fold_right advance]. fold (straight cs). now rewrite IH.
Qed.

Lemma caught (e : thrown) :
  try_finally (catch_clause e) finally_block =
  straight (ending_calls (Failed e)).
Proof. destruct e; reflexivity. Qed.

Lemma after_fetch_rejected (e : thrown) :
  after_fetch (Rejected e) = straight (ending_calls (Failed e)).
Proof. apply caught. Qed.

Lemma after_json_ending (resp : response) (d : settled value) :
  after_json resp d = straight (ending_calls (ending_of_body resp d)).
Proof.
  unfold after_json, use_data, ending_of_body.
  destruct d as [data|e]; cbn [of_settled bind try_catch]; [|apply caught].
  destruct (get_property data "status") as [s|e], (ok resp);
    cbn [negb of_settled bind try_catch]; try apply caught.
  - reflexivity.
  - destruct (new_Error _) as [err|e]; cbn [of_settled bind try_catch];
      apply caught.
Qed.

(** ** One submission, run to completion *)

Lemma run_after_fetch net (answer : settled response) :
  run net (after_fetch answer) =
  (ending_calls (ending_of answer), Fulfilled tt).
Proof.
  destruct answer as [resp|e].
  - rewrite after_fetch_fulfilled. cbn [run ending_of].
    rewrite after_json_ending. apply run_straight.
  - rewrite after_fetch_rejected. apply run_straight.
Qed.

(** A submission that passes the guard makes the calls of the
    prologue, sends the request and ends as the answer decides; its own
    promise is fulfilled. *)
Lemma run_handleSubmit net (st : state) :
  passes_guard st ->
  run net (handleSubmit st) =
  ((prologue ++ fetch API_URL (fetch_init st)
      :: ending_calls (ending_of (net API_URL (fetch_init st))))%list,
   Fulfilled tt).
Proof.
  intros G. rewrite (handleSubmit_open _ G), attempt_awaits.
  cbn [run]. rewrite run_after_fetch. reflexivity.
Qed.

Lemma submission_calls_ending (answer : settled response) (st : state) :
  passes_guard st ->
  submission_calls answer st =
  (prologue ++ fetch API_URL (fetch_init st)
     :: ending_calls (ending_of answer))%list.
Proof.
  intros G. unfold submission_calls. rewrite (run_handleSubmit _ _ G).
  reflexivity.
Qed.

(** The state a completed submission leaves. *)
Lemma submit_ending (answer : settled response) (st : state) :
  passes_guard st ->
  submit answer st =
  match ending_of answer with
  | Shown v =>
      {| username := username st; message := EmptyString;
         isLoading := false; status := v |}
  | Failed e =>
      {| username := username st; message := message st;
         isLoading := false; status := error_text e |}
  end.
Proof.
  intros G. unfold submit. rewrite (submission_calls_ending _ _ G).
  destruct (ending_of answer); reflexivity.
Qed.

Lemma lookup_absent (key : string) (props : list (string * value)) :
  ~ In key (map fst props) -> lookup key props = Undefined.
Proof.
  induction props as [|[k v] rest IH]; cbn; [reflexivity|].
  intros H. destruct (String.eqb_spec k key) as [->|_].
  - exfalso. apply H. now left.
  - apply IH. intros Hin. apply H. now right.
Qed.

Lemma requests_app (a b : list call) :
  requests (a ++ b) = (requests a ++ requests b)%list.
Proof.
  induction a as [|c a IH]; [reflexivity|].
  destruct c; cbn; rewrite IH; reflexivity.
Qed.

Lemma requests_ending (x : ending) : requests (ending_calls x) = [].
Proof. destruct x; reflexivity. Qed.

(** ** The event loop *)

Lemma deliver_advance (w : world) (m : Async unit) cs t :
  advance m = (cs, t) ->
  deliver w m =
  {| ui := apply_calls (ui w) cs;
     page := page w;
     pending := (pending w ++ option_list t)%list;
     sent := (sent w ++ requests cs)%list |}.
Proof. intros H. unfold deliver. rewrite H. reflexivity. Qed.

Lemma deliver_straight (w : world) (cs : list call) :
  deliver w (straight cs) =
  {| ui := apply_calls (ui w) cs;
     page := page w;
     pending := pending w;
     sent := (sent w ++ requests cs)%list |}.
Proof.
  rewrite (deliver_advance _ _ _ _ (advance_straight cs)).
  cbn [option_list]. rewrite app_nil_r. reflexivity.
Qed.

(** The synchronous part of a submission that passes the guard. *)
Lemma advance_open (st : state) :
  passes_guard st ->
  advance (handleSubmit st) =
  ((prologue ++ [fetch API_URL (fetch_init st)])%list,
   Some (OnFetch after_fetch)).
Proof. intros G. rewrite (handleSubmit_open _ G). reflexivity. Qed.

(** A handler that is turned away at the guard changes nothing. *)
Lemma step_submit_closed (w : world) (props : state) :
  page w = Some props ->
  negb (string_truthy (message props)) || isLoading props = true ->
  step w Submit = w.
Proof.
  intros Hpage G. cbn [step]. rewrite Hpage, (handleSubmit_closed _ G).
  unfold deliver. cbn. rewrite !app_nil_r. destruct w; cbn in *.
  reflexivity.
Qed.

Lemma step_submit_open (w : world) (props : state) :
  page w = Some props ->
  passes_guard props ->
  step w Submit =
  {| ui := apply_calls (ui w) (prologue ++ [fetch API_URL (fetch_init props)]);
     page := page w;
     pending := (pending w ++ [OnFetch after_fetch])%list;
     sent := (sent w ++ [(API_URL, fetch_init props)])%list |}.
Proof.
  intros Hpage G. cbn [step]. rewrite Hpage.
  rewrite (deliver_advance _ _ _ _ (advance_open _ G)), Hpage. reflexivity.
Qed.

Lemma step_change (w : world) (ev : event) (c : call) (props : state) :
  page w = Some props ->
  (exists s, (ev = ChangeUsername s /\ c = setUsername s) \/
             (ev = ChangeMessage s /\ c = setMessage s)) ->
  step w ev =
  {| ui := apply_call (ui w) c; page := page w;
     pending := pending w; sent := sent w |}.
Proof.
  intros Hpage [s [[-> ->]|[-> ->]]]; cbn [step]; rewrite Hpage;
    unfold deliver; cbn; rewrite !app_nil_r, Hpage; reflexivity.
Qed.

Lemma step_render (w : world) :
  ui (step w Render) = ui w /\
  pending (step w Render) = pending w /\
  sent (step w Render) = sent w /\
  (forall st, page (step w Render) = Some st ->
              st = ui w /\ page w <> None /\ render st <> None).
Proof.
  cbn [step]. destruct (page w) as [props|] eqn:Hpage.
  - cbn [ui pending sent page]. repeat split; try discriminate;
      destruct (render (ui w)) eqn:Hr; try discriminate;
      injection H as <-; [reflexivity | rewrite Hr; discriminate].
  - repeat split; rewrite Hpage in H; discriminate.
Qed.

Lemma step_render_ok (w : world) (props : state) (v : view) :
  page w = Some props -> render (ui w) = Some v ->
  step w Render =
  {| ui := ui w; page := Some (ui w);
     pending := pending w; sent := sent w |}.
Proof. intros Hpage Hr. cbn [step]. rewrite Hpage, Hr. reflexivity. Qed.

Lemma deliver_after_fetch (w : world) (r : settled response) :
  deliver w (after_fetch r) =
  match r with
  | Fulfilled resp =>
      {| ui := ui w; page := page w;
         pending := (pending w ++ [OnJson resp (after_json resp)])%list;
         sent := sent w |}
  | Rejected e =>
      {| ui := apply_calls (ui w) (ending_calls (Failed e)); page := page w;
         pending := pending w; sent := sent w |}
  end.
Proof.
  destruct r as [resp|e].
  - rewrite after_fetch_fulfilled. unfold deliver. cbn.
    rewrite app_nil_r. reflexivity.
  - rewrite after_fetch_rejected, deliver_straight, requests_ending,
      app_nil_r. reflexivity.
Qed.

Lemma deliver_after_json (w : world) (resp : response) (d : settled value) :
  deliver w (after_json resp d) =
  {| ui := apply_calls (ui w) (ending_calls (ending_of_body resp d));
     page := page w; pending := pending w; sent := sent w |}.
Proof.
  rewrite after_json_ending, deliver_straight, requests_ending, app_nil_r.
  reflexivity.
Qed.

Lemma isLoading_after_ending (st : state) (x : ending) :
  isLoading (apply_calls st (ending_calls x)) = false.
Proof. destruct x; reflexivity. Qed.

Lemma steps_cons (w : world) (ev : event) (evs : list event) :
  steps w (ev :: evs) = steps (step w ev) evs.
Proof. reflexivity. Qed.

Lemma steps_app (w : world) (a b : list event) :
  steps w (a ++ b) = steps (steps w a) b.
Proof. apply fold_left_app. Qed.

Lemma Forall_remove_nth {A : Type} (P : A -> Prop) (i : nat) (l : list A) :
  Forall P l -> Forall P (remove_nth i l).
Proof.
  intros H. revert i. induction H as [|a l Ha Hl IH]; intros i;
    [destruct i; constructor|].
  destruct i; cbn [remove_nth]; [exact Hl | constructor; auto].
Qed.

Lemma nth_error_Forall {A : Type} (P : A -> Prop) (l : list A) i a :
  Forall P l -> nth_error l i = Some a -> P a.
Proof.
  intros H Hn. apply nth_error_In in Hn.
  rewrite Forall_forall in H. apply H, Hn.
Qed.

(** What a settlement does to a world whose tasks are those of
    [handleSubmit]. *)
Lemma step_FetchSettled (w : world) (i : nat) (r : settled response) :
  handler_tasks w ->
  step w (FetchSettled i r) = w \/
  (nth_error (pending w) i = Some (OnFetch after_fetch) /\
   step w (FetchSettled i r) = deliver (without_task i w) (after_fetch r)).
Proof.
  intros Ht. cbn [step].
  destruct (nth_error (pending w) i) as [[k|resp k]|] eqn:Hn; auto.
  right. pose proof (nth_error_Forall _ _ _ _ Ht Hn) as Hk.
  inversion Hk. subst. auto.
Qed.

Lemma step_JsonSettled (w : world) (i : nat) :
  handler_tasks w ->
  step w (JsonSettled i) = w \/
  (exists resp,
     nth_error (pending w) i = Some (OnJson resp (after_json resp)) /\
     step w (JsonSettled i) =
     deliver (without_task i w) (after_json resp (json resp))).
Proof.
  intros Ht. cbn [step].
  destruct (nth_error (pending w) i) as [[k|resp k]|] eqn:Hn; auto.
  right. pose proof (nth_error_Forall _ _ _ _ Ht Hn) as Hk.
  inversion Hk. subst. exists resp. auto.
Qed.

Lemma guard_cases (st : state) :
  negb (string_truthy (message st)) || isLoading st = true \/
  passes_guard st.
Proof.
  unfold passes_guard.
  destruct (message st) as [|c s]; [left; reflexivity|].
  destruct (isLoading st); [left; reflexivity|].
  right. split; [discriminate | reflexivity].
Qed.

(** Under any interleaving the pending tasks are those of
    [handleSubmit], and a turn sends nothing unless it is a submit that
    passes the guard, which sends one request. *)
Lemma step_sends (w : world) (ev : event) :
  handler_tasks w ->
  handler_tasks (step w ev) /\
  (sent (step w ev) = sent w \/
   (ev = Submit /\
    exists props, page w = Some props /\ passes_guard props /\
      sent (step w ev) = (sent w ++ [(API_URL, fetch_init props)])%list)).
Proof.
  intros Ht. unfold handler_tasks in *. destruct ev as [|s|s|i r|i|].
  - destruct (page w) as [props|] eqn:Hpage;
      [|cbn [step]; rewrite Hpage; auto].
    destruct (guard_cases props) as [G|G].
    + rewrite (step_submit_closed _ _ Hpage G). auto.
    + rewrite (step_submit_open _ _ Hpage G). cbn [pending sent]. split.
      * apply Forall_app. split; [exact Ht|]. repeat constructor.
      * right. split; [reflexivity|]. exists props. auto.
  - destruct (page w) as [props|] eqn:Hpage;
      [|cbn [step]; rewrite Hpage; auto].
    rewrite (step_change w _ (setUsername s) props Hpage)
      by (exists s; left; split; reflexivity). auto.
  - destruct (page w) as [props|] eqn:Hpage;
      [|cbn [step]; rewrite Hpage; auto].
    rewrite (step_change w _ (setMessage s) props Hpage)
      by (exists s; right; split; reflexivity). auto.
  - destruct (step_FetchSettled w i r Ht) as [->|[_ ->]]; [auto|].
    rewrite deliver_after_fetch.
    destruct r as [resp|e]; cbn [without_task pending sent]; split; auto.
    + apply Forall_app. split; [apply Forall_remove_nth, Ht|].
      repeat constructor.
    + apply Forall_remove_nth, Ht.
  - destruct (step_JsonSettled w i Ht) as [->|[resp [_ ->]]]; [auto|].
    rewrite deliver_after_json. cbn [without_task pending sent].
    split; [apply Forall_remove_nth, Ht | auto].
  - destruct (step_render w) as [_ [-> [-> _]]]. auto.
Qed.

Lemma handler_tasks_steps (evs : list event) (w : world) :
  handler_tasks w -> handler_tasks (steps w evs).
Proof.
  revert w. induction evs as [|ev evs IH]; intros w Ht; [exact Ht|].
  rewrite steps_cons. apply IH, step_sends, Ht.
Qed.

Lemma handler_tasks_initial : handler_tasks initial_world.
Proof. constructor. Qed.

(** Induction over the worlds the event loop can reach. *)
Lemma reachable_induction (P : world -> Prop) :
  P initial_world ->
  (forall w ev, handler_tasks w -> P w -> P (step w ev)) ->
  forall w, reachable w -> P w.
Proof.
  intros H0 Hstep w [evs ->].
  assert (H : forall evs w0, handler_tasks w0 -> P w0 -> P (steps w0 evs)).
  { clear evs. induction evs as [|ev evs IH]; intros w0 Ht Hw; [exact Hw|].
    rewrite steps_cons. apply IH.
    - apply step_sends, Ht.
    - apply Hstep; assumption. }
  apply H; [apply handler_tasks_initial | exact H0].
Qed.

(** ** One submission at a time *)

Lemma single_task {A : Type} (l : list A) (i : nat) (a : A) :
  length l <= 1 -> nth_error l i = Some a -> l = [a] /\ i = 0.
Proof.
  destruct l as [|x [|y l]]; cbn [length]; intros Hl Hn; [| |lia].
  - destruct i; discriminate.
  - destruct i as [|i]; [|destruct i; discriminate].
    injection Hn as ->. auto.
Qed.

Lemma one_at_a_time_initial : one_at_a_time initial_world.
Proof.
  unfold one_at_a_time, handler_tasks. cbn.
  split; [constructor|]. split; [lia|].
  split; [split; [congruence | discriminate]|].
  split; [congruence | reflexivity].
Qed.

(** A render puts the page back in step with the state. *)
Lemma render_restores (w : world) :
  handler_tasks w ->
  length (pending w) <= 1 ->
  (pending w <> [] <-> isLoading (ui w) = true) ->
  (pending w <> [] -> status (ui w) = Str "Sending...") ->
  one_at_a_time (step w Render).
Proof.
  intros Ht Hlen Hiff Hst.
  destruct (step_render w) as [Hu [Hp [_ Hpg]]].
  unfold one_at_a_time, handler_tasks. rewrite Hu, Hp.
  repeat split; try assumption; try apply Hiff.
  intros st Hpage Hl. destruct (Hpg st Hpage) as [-> _].
  destruct (pending w) as [|t l]; [reflexivity|].
  assert (isLoading (ui w) = true) by (apply Hiff; discriminate).
  congruence.
Qed.

Lemma one_at_a_time_step (w : world) (ev : event) :
  is_Submit ev = false -> one_at_a_time w -> one_at_a_time (step w ev).
Proof.
  intros Hev Inv. pose proof Inv as [Ht [Hlen [Hiff [Hst Hpg]]]].
  destruct ev as [|s|s|i r|i|]; [discriminate| | | | |].
  - destruct (page w) as [props|] eqn:Hpage.
    + rewrite (step_change w _ (setUsername s) props Hpage)
        by (exists s; left; split; reflexivity).
      unfold one_at_a_time, handler_tasks in *. cbn. exact Inv.
    + cbn [step]. rewrite Hpage. exact Inv.
  - destruct (page w) as [props|] eqn:Hpage.
    + rewrite (step_change w _ (setMessage s) props Hpage)
        by (exists s; right; split; reflexivity).
      unfold one_at_a_time, handler_tasks in *. cbn. exact Inv.
    + cbn [step]. rewrite Hpage. exact Inv.
  - destruct (step_FetchSettled w i r Ht) as [->|[Hn ->]]; [exact Inv|].
    destruct (single_task _ _ _ Hlen Hn) as [Hp ->].
    assert (Hl : isLoading (ui w) = true)
      by (apply Hiff; rewrite Hp; discriminate).
    assert (Hs : status (ui w) = Str "Sending...")
      by (apply Hst; rewrite Hp; discriminate).
    rewrite deliver_after_fetch. unfold one_at_a_time, handler_tasks.
    destruct r as [resp|e]; cbn [without_task ui page pending sent];
      rewrite Hp; cbn [remove_nth app length].
    + split; [repeat constructor|]. split; [lia|].
      split; [split; [intros _; exact Hl | discriminate]|].
      split; [intros _; exact Hs|].
      intros st Hpage Hf. specialize (Hpg st Hpage Hf). congruence.
    + rewrite isLoading_after_ending.
      split; [constructor|]. split; [lia|].
      split; [split; [congruence | discriminate]|].
      split; [congruence | reflexivity].
  - destruct (step_JsonSettled w i Ht) as [->|[resp [Hn ->]]];
      [exact Inv|].
    destruct (single_task _ _ _ Hlen Hn) as [Hp ->].
    rewrite deliver_after_json. unfold one_at_a_time, handler_tasks.
    cbn [without_task ui page pending sent].
    rewrite Hp, isLoading_after_ending. cbn [remove_nth length].
    split; [constructor|]. split; [lia|].
    split; [split; [congruence | discriminate]|].
    split; [congruence | reflexivity].
  - apply render_restores; assumption.
Qed.

Lemma one_at_a_time_submit (w : world) :
  one_at_a_time w -> one_at_a_time (step (step w Submit) Render).
Proof.
  intros Inv. pose proof Inv as [Ht [Hlen [Hiff [Hst Hpg]]]].
  destruct (page w) as [props|] eqn:Hpage.
  - destruct (guard_cases props) as [G|G].
    + rewrite (step_submit_closed _ _ Hpage G).
      apply one_at_a_time_step; [reflexivity | exact Inv].
    + rewrite (step_submit_open _ _ Hpage G).
      pose proof (Hpg props eq_refl (proj2 G)) as Hp. rewrite Hp.
      apply render_restores; cbn [ui pending app length].
      * repeat constructor.
      * lia.
      * split; [reflexivity | discriminate].
      * reflexivity.
  - assert (E : step w Submit = w) by (cbn [step]; rewrite Hpage; reflexivity).
    rewrite E. apply one_at_a_time_step; [reflexivity | exact Inv].
Qed.

Lemma one_at_a_time_flushed (evs : list event) (w : world) :
  one_at_a_time w -> one_at_a_time (steps w (flushed evs)).
Proof.
  revert w. induction evs as [|ev evs IH]; intros w Inv; [exact Inv|].
  unfold flushed. cbn [flat_map]. fold (flushed evs). rewrite steps_app.
  apply IH. destruct (is_Submit ev) eqn:Hev.
  - rewrite !steps_cons. apply one_at_a_time_submit, Inv.
  - rewrite steps_cons. apply one_at_a_time_step; assumption.
Qed.

Lemma one_at_a_time_reachable (w : world) :
  reachable_flushed w -> one_at_a_time w.
Proof.
  intros [evs ->]. apply one_at_a_time_flushed, one_at_a_time_initial.
Qed.

Lemma step_FetchSettled_head (w : world) k rest r :
  pending w = OnFetch k :: rest ->
  step w (FetchSettled 0 r) = deliver (without_task 0 w) (k r).
Proof. intros Hp. cbn [step]. rewrite Hp. reflexivity. Qed.

Lemma step_JsonSettled_head (w : world) resp k rest :
  pending w = OnJson resp k :: rest ->
  step w (JsonSettled 0) = deliver (without_task 0 w) (k (json resp)).
Proof. intros Hp. cbn [step]. rewrite Hp. reflexivity. Qed.

Lemma step_JsonSettled_idle (w : world) (i : nat) :
  pending w = [] -> step w (JsonSettled i) = w.
Proof. intros Hp. cbn [step]. rewrite Hp. destruct i; reflexivity. Qed.

(** The event loop agrees with [run]: from a world with nothing
    pending whose page shows the current state, a submission whose
    request and body promise then settle leaves the state that
    [submit] computes. *)
Lemma event_loop_submit (w : world) (answer : settled response) :
  page w = Some (ui w) -> pending w = [] -> passes_guard (ui w) ->
  ui (steps w [Submit; FetchSettled 0 answer; JsonSettled 0]) =
  submit answer (ui w).
Proof.
  intros Hpage Hp G. unfold submit. rewrite (submission_calls_ending _ _ G).
  rewrite !steps_cons, (step_submit_open _ _ Hpage G), Hp. cbn [app].
  erewrite step_FetchSettled_head by reflexivity.
  rewrite deliver_after_fetch.
  destruct answer as [resp|e];
    cbn [without_task remove_nth pending ui page sent app].
  - erewrite step_JsonSettled_head by reflexivity.
    rewrite deliver_after_json.
    cbn [steps fold_left ui without_task ending_of].
    unfold apply_calls. rewrite !fold_left_app. reflexivity.
  - rewrite step_JsonSettled_idle by reflexivity.
    cbn [steps fold_left ui ending_of].
    unfold apply_calls. rewrite !fold_left_app. reflexivity.
Qed.

(** ** The request body determines the form fields *)

Lemma JSON_read_escape (c : ascii) (rest : string) :
  JSON_read_chars (JSON_escape c ++ rest) =
  prepend c (JSON_read_chars rest).
Proof.
  destruct c as [[] [] [] [] [] [] [] []]; reflexivity.
Qed.

Lemma JSON_read_escape_all (s rest : string) :
  JSON_read_chars (JSON_escape_all s ++ DQ ++ rest) = Some (s, rest).
Proof.
  induction s as [|c s IH]; [reflexivity|].
  cbn [JSON_escape_all]. rewrite append_assoc, JSON_read_escape, IH.
  reflexivity.
Qed.

Lemma JSON_escape_all_cancel (s1 s2 r1 r2 : string) :
  JSON_escape_all s1 ++ String dquote r1 =
  JSON_escape_all s2 ++ String dquote r2 ->
  s1 = s2 /\ r1 = r2.
Proof.
  intros H.
  assert (E : Some (s1, r1) = Some (s2, r2)).
  { rewrite <- (JSON_read_escape_all s1 r1), <- (JSON_read_escape_all s2 r2).
    cbn [DQ append]. now rewrite H. }
  injection E as -> ->. split; reflexivity.
Qed.

(** ** Rendering the state a submission leaves *)

Lemma ending_of_failure (answer : settled response) :
  is_failure answer = true -> exists e, ending_of answer = Failed e.
Proof.
  destruct answer as [resp|e]; [|intros _; exists e; reflexivity].
  cbn [is_failure ending_of]. unfold ending_of_body.
  destruct (json resp) as [data|e]; [|intros _; exists e; reflexivity].
  destruct (get_property data "status") as [s|e];
    [|intros _; exists e; reflexivity].
  destruct (ok resp); [discriminate|]. intros _.
  destruct (new_Error _) as [err|e]; eexists; reflexivity.
Qed.

Lemma error_text_shown (e : thrown) :
  exists text, error_text e = Str text /\ text <> EmptyString.
Proof.
  destruct e as [msg|v]; eexists; (split; [reflexivity | discriminate]).
Qed.

(** The page renders every state whose status React can render. *)
Lemma render_renderable (st : state) :
  renderable (status st) = true ->
  exists v, render st = Some v /\
            submitButton_disabled v = isLoading st /\
            usernameInput_disabled v = isLoading st /\
            messageInput_disabled v = isLoading st /\
            submitButton_dots v = isLoading st /\
            statusMessage v = status_region (status st).
Proof.
  intros Hr. unfold render. rewrite Hr, andb_false_r.
  eexists. split; [reflexivity|]. cbn. auto.
Qed.

Lemma render_some (st : state) (v : view) :
  render st = Some v ->
  submitButton_disabled v = isLoading st /\
  usernameInput_disabled v = isLoading st /\
  messageInput_disabled v = isLoading st /\
  submitButton_dots v = isLoading st /\
  statusMessage v = status_region (status st).
Proof.
  unfold render. destruct (truthy (status st) && negb (renderable (status st)));
    [discriminate|].
  intros H. injection H as <-. cbn. auto.
Qed.

Lemma falsy_renderable (v : value) : truthy v = false -> renderable v = true.
Proof. destruct v; cbn; intros H; try reflexivity; discriminate. Qed.

(** ** The claims *)

(** C1.  When the response is successful and the [status] field of its
    JSON body is the string [s] (such as [Sent!]), the submission leaves
    the status text equal to [s], the message field empty and the
    username field as it was. *)
Theorem success_shows_status_and_clears_message
    (st : state) (props : list (string * value)) (s : string) :
  passes_guard st ->
  lookup "status" props = Str s ->
  let st' :=
    submit (Fulfilled {| ok := true; json := Fulfilled (Obj props) |}) st in
  status st' = Str s /\
  message st' = EmptyString /\
  username st' = username st.
Proof.
  intros G Hs st'. subst st'. rewrite (submit_ending _ _ G).
  cbn [ending_of ending_of_body json ok get_property]. rewrite Hs. cbn. auto.
Qed.

(** C2, as amended.  When the response is not successful and its JSON
    body is an object: a non-empty string [s] in the [status] field is
    shown as [Error: ] followed by [s]; a [status] field that is absent,
    or holds the empty string, is shown as [Error: An error occurred.];
    and the message field keeps its text. *)
Theorem http_error_shows_prefixed_status
    (st : state) (props : list (string * value)) :
  passes_guard st ->
  let st' :=
    submit (Fulfilled {| ok := false; json := Fulfilled (Obj props) |}) st in
  (forall s, s <> EmptyString -> lookup "status" props = Str s ->
             status st' = Str ("Error: " ++ s)) /\
  (~ In "status" (map fst props) \/ lookup "status" props = Str EmptyString ->
   status st' = Str "Error: An error occurred.") /\
  message st' = message st.
Proof.
  intros G st'. subst st'. rewrite (submit_ending _ _ G).
  cbn [ending_of ending_of_body json ok get_property]. repeat split.
  - intros s Hne Hs. rewrite Hs. unfold or_else. cbn [truthy].
    rewrite (string_truthy_true _ Hne). reflexivity.
  - intros [Habs|Hs].
    + rewrite (lookup_absent _ _ Habs). reflexivity.
    + rewrite Hs. reflexivity.
  - destruct (new_Error _); reflexivity.
Qed.

(** C3.  When the [fetch] promise or the body promise rejects with [e],
    the status text is [Error: ] followed by the message of [e] if [e]
    is an [Error] object, and [An unknown error occurred.] otherwise. *)
Theorem thrown_exception_text
    (st : state) (answer : settled response) (e : thrown) :
  passes_guard st ->
  answer = Rejected e \/
  (exists o, answer = Fulfilled {| ok := o; json := Rejected e |}) ->
  status (submit answer st) =
  match e with
  | ErrorObject msg => Str ("Error: " ++ msg)
  | NonError _ => Str "An unknown error occurred."
  end.
Proof.
  intros G [->|[o ->]]; rewrite (submit_ending _ _ G);
    destruct e; reflexivity.
Qed.

(** C4.  A submit event on a page whose message field is empty leaves
    the world as it is: no request is sent, nothing is queued, and the
    status text, the two fields and the in-flight flag keep their
    values.  The handler makes no call but [preventDefault]. *)
Theorem empty_message_submit_is_noop (w : world) (props : state) :
  page w = Some props ->
  message props = EmptyString ->
  step w Submit = w /\
  (forall net, fst (run net (handleSubmit props)) = [preventDefault]).
Proof.
  intros Hpage Hm.
  assert (G : negb (string_truthy (message props)) || isLoading props
              = true) by (rewrite Hm; reflexivity).
  split.
  - apply (step_submit_closed _ _ Hpage G).
  - intros net. rewrite (handleSubmit_closed _ G). reflexivity.
Qed.


(** C6, as amended.  Whatever answers the request, a submission that
    passes the guard ends by clearing the in-flight flag:
    [setIsLoading(false)] is its last call and the flag is false in the
    state it leaves.  The submit button is enabled again whenever the
    page can render the status that the submission left, which is so
    after every failure. *)
Theorem in_flight_flag_cleared (st : state) (answer : settled response) :
  passes_guard st ->
  (exists before,
     submission_calls answer st = (before ++ [setIsLoading false])%list) /\
  isLoading (submit answer st) = false /\
  (renderable (status (submit answer st)) = true \/
   is_failure answer = true ->
   exists v, render (submit answer st) = Some v /\
             submitButton_disabled v = false).
Proof.
  intros G. split; [|split].
  - rewrite (submission_calls_ending _ _ G).
    destruct (ending_of answer) as [v|e].
    + exists (prologue ++ [fetch API_URL (fetch_init st); setStatus v;
                            setMessage EmptyString])%list. reflexivity.
    + exists (prologue ++ [fetch API_URL (fetch_init st);
                            setStatus (error_text e)])%list. reflexivity.
  - rewrite (submit_ending _ _ G).
    destruct (ending_of answer); reflexivity.
  - intros H.
    assert (Hr : renderable (status (submit answer st)) = true).
    { destruct H as [H|F]; [exact H|].
      rewrite (submit_ending _ _ G).
      destruct (ending_of_failure _ F) as [e ->].
      destruct e; reflexivity. }
    destruct (render_renderable _ Hr) as [v [Hv [Hd _]]].
    exists v. split; [exact Hv|]. rewrite Hd, (submit_ending _ _ G).
    destruct (ending_of answer); reflexivity.
Qed.

(** C7.  A submission that passes the guard sends one request and no
    more: a POST to the fixed URL, with the one header
    [Content-Type: application/json] and, as body, the JSON text of an
    object with the members [username] and [message], holding the
    current username and message. *)
Theorem one_post_with_json_body net (st : state) :
  passes_guard st ->
  exists init,
    requests (fst (run net (handleSubmit st))) =
      [("http://localhost:5000/send-dm", init)] /\
    method init = "POST" /\
    headers init = [("Content-Type", "application/json")] /\
    body init =
      "{" ++ DQ ++ "username" ++ DQ ++ ":" ++ JSON_quote (username st)
      ++ "," ++ DQ ++ "message" ++ DQ ++ ":" ++ JSON_quote (message st)
      ++ "}".
Proof.
  intros G. exists (fetch_init st). repeat split.
  - rewrite (run_handleSubmit _ _ G). cbn [fst].
    rewrite requests_app. cbn [requests prologue app].
    rewrite requests_ending. reflexivity.
  - apply fetch_init_body.
Qed.

(** C8, as amended.  A submission that passes the guard first raises
    the in-flight flag and sets the status text to [Sending...], then
    issues the request; once the request is answered the status text is
    set again, to the status of a successful response or to the text of
    the error, and that is the status the submission leaves. *)
Theorem status_sending_then_overwritten
    (st : state) (answer : settled response) :
  passes_guard st ->
  fst (advance (handleSubmit st)) =
    [preventDefault; setIsLoading true; setStatus (Str "Sending...");
     fetch API_URL (fetch_init st)] /\
  status (apply_calls st (fst (advance (handleSubmit st)))) =
    Str "Sending..." /\
  exists v rest,
    submission_calls answer st =
      ([preventDefault; setIsLoading true; setStatus (Str "Sending...");
        fetch API_URL (fetch_init st); setStatus v] ++ rest)%list /\
    status (submit answer st) = v /\
    ((exists r d, answer = Fulfilled r /\ ok r = true /\
                  json r = Fulfilled d /\
                  get_property d "status" = Fulfilled v) \/
     (exists e, v = error_text e)).
Proof.
  intros G. rewrite (advance_open _ G). cbn [fst prologue app].
  split; [reflexivity|]. split; [reflexivity|].
  rewrite (submit_ending _ _ G), (submission_calls_ending _ _ G).
  destruct (ending_of answer) as [v|e] eqn:He.
  - exists v, [setMessage EmptyString; setIsLoading false].
    split; [reflexivity|]. split; [reflexivity|]. left.
    destruct answer as [r|e]; [|discriminate].
    cbn [ending_of] in He. unfold ending_of_body in He.
    destruct (json r) as [d|e] eqn:Hj; [|discriminate].
    destruct (get_property d "status") as [s|e] eqn:Hg; [|discriminate].
    destruct (ok r) eqn:Ho.
    + exists r, d. inversion He. subst. auto.
    + destruct (new_Error _); discriminate.
  - exists (error_text e), [setIsLoading false].
    split; [reflexivity|]. split; [reflexivity|]. right.
    exists e. reflexivity.
Qed.

(** C9.  When the body of the response does not parse, the exception of
    the parse decides what is shown: the submission makes the same calls
    and leaves the same state whether or not the response is [ok], and
    the status text is the one the [catch] clause gives for that
    exception. *)
Theorem parse_failure_precedes_status_check
    (st : state) (e : thrown) (o1 o2 : bool) :
  passes_guard st ->
  let unparsed o := Fulfilled {| ok := o; json := Rejected e |} in
  submission_calls (unparsed o1) st = submission_calls (unparsed o2) st /\
  submit (unparsed o1) st = submit (unparsed o2) st /\
  status (submit (unparsed o1) st) =
    match e with
    | ErrorObject msg => Str ("Error: " ++ msg)
    | NonError _ => Str "An unknown error occurred."
    end.
Proof.
  intros G unparsed. subst unparsed. cbn beta.
  rewrite !(submit_ending _ _ G), !(submission_calls_ending _ _ G).
  cbn [ending_of ending_of_body json]. repeat split.
Qed.

(** C10.  An empty username does not hold a submission back: on a
    page with an empty username, a non-empty message and the in-flight
    flag down, the submit event sends the request, and its body carries
    the member [username] with the empty string. *)
Theorem empty_username_still_submits (w : world) (props : state) :
  page w = Some props ->
  username props = EmptyString ->
  message props <> EmptyString ->
  isLoading props = false ->
  exists init,
    sent (step w Submit) =
      (sent w ++ [("http://localhost:5000/send-dm", init)])%list /\
    method init = "POST" /\
    body init =
      "{" ++ DQ ++ "username" ++ DQ ++ ":" ++ DQ ++ DQ
      ++ "," ++ DQ ++ "message" ++ DQ ++ ":"
      ++ JSON_quote (message props) ++ "}".
Proof.
  intros Hpage Hu Hm Hl. exists (fetch_init props).
  assert (G : passes_guard props) by (split; assumption).
  rewrite (step_submit_open _ _ Hpage G). cbn [sent].
  repeat split. rewrite fetch_init_body, Hu. reflexivity.
Qed.

(** ** Further properties of one submission *)

Lemma submission_calls_closed (answer : settled response) (st : state) :
  negb (string_truthy (message st)) || isLoading st = true ->
  submission_calls answer st = [preventDefault].
Proof.
  intros G. unfold submission_calls. rewrite (handleSubmit_closed _ G).
  reflexivity.
Qed.

Lemma submit_closed_state (answer : settled response) (st : state) :
  negb (string_truthy (message st)) || isLoading st = true ->
  submit answer st = st.
Proof.
  intros G. unfold submit. rewrite (submission_calls_closed _ _ G).
  reflexivity.
Qed.

(** X1.  The promise of [handleSubmit] is always fulfilled: whatever
    the state and the network, no exception leaves the handler. *)
Theorem handler_promise_always_fulfilled net (st : state) :
  snd (run net (handleSubmit st)) = Fulfilled tt.
Proof.
  destruct (guard_cases st) as [G|G].
  - rewrite (handleSubmit_closed _ G). reflexivity.
  - rewrite (run_handleSubmit _ _ G). reflexivity.
Qed.

(** X2.  No submission changes the username field, whether it is
    turned away at the guard, succeeds or fails. *)
Theorem submission_keeps_username (answer : settled response) (st : state) :
  username (submit answer st) = username st.
Proof.
  destruct (guard_cases st) as [G|G].
  - rewrite (submit_closed_state _ _ G). reflexivity.
  - rewrite (submit_ending _ _ G). destruct (ending_of answer); reflexivity.
Qed.

(** X3.  The message field changes only on success: if a submission
    leaves a message other than the one it started with, the response
    was [ok], its body parsed and its [status] could be read; the
    message is then empty and the status text is that [status]. *)
Theorem message_changes_only_on_success
    (answer : settled response) (st : state) :
  message (submit answer st) <> message st ->
  exists resp data v,
    answer = Fulfilled resp /\ ok resp = true /\
    json resp = Fulfilled data /\
    get_property data "status" = Fulfilled v /\
    message (submit answer st) = EmptyString /\
    status (submit answer st) = v.
Proof.
  destruct (guard_cases st) as [G|G].
  - rewrite (submit_closed_state _ _ G). congruence.
  - rewrite (submit_ending _ _ G).
    destruct (ending_of answer) as [v|e] eqn:He; cbn [message status];
      [intros _ | congruence].
    destruct answer as [resp|e]; [|discriminate].
    cbn [ending_of] in He. unfold ending_of_body in He.
    destruct (json resp) as [data|e] eqn:Hj; [|discriminate].
    destruct (get_property data "status") as [s|e] eqn:Hg; [|discriminate].
    destruct (ok resp) eqn:Ho.
    + exists resp, data, s. inversion He. subst. auto 6.
    + destruct (new_Error _); discriminate.
Qed.

(** X4.  Every failure is shown and loses nothing: when the [fetch]
    promise rejects, the response is not [ok] or its body does not
    parse, the submission leaves a non-empty status text, the page
    renders and shows that text in the status paragraph, the message
    field is kept and the in-flight flag is cleared. *)
Theorem failure_is_shown_and_keeps_message
    (answer : settled response) (st : state) :
  passes_guard st ->
  is_failure answer = true ->
  exists text v,
    text <> EmptyString /\
    status (submit answer st) = Str text /\
    render (submit answer st) = Some v /\
    statusMessage v = StatusLine (Str text) /\
    message (submit answer st) = message st /\
    isLoading (submit answer st) = false.
Proof.
  intros G F. rewrite (submit_ending _ _ G).
  destruct (ending_of_failure _ F) as [e ->].
  destruct (error_text_shown e) as [text [Ht Hne]].
  exists text. unfold render. cbn [status message isLoading].
  rewrite Ht. cbn [truthy renderable negb andb]. rewrite andb_false_r.
  eexists. split; [exact Hne|]. split; [reflexivity|].
  split; [reflexivity|]. cbn [statusMessage].
  unfold status_region. cbn [truthy].
  rewrite (string_truthy_true _ Hne). auto.
Qed.

(** X5.  A body that is [null] cannot be asked for its [status]: on
    such a response, [ok] or not, the property read throws, the status
    text is [Error: ] followed by the message of that [TypeError], and
    the message field is kept. *)
Theorem null_body_is_an_error (st : state) (o : bool) :
  passes_guard st ->
  let st' := submit (Fulfilled {| ok := o; json := Fulfilled Null |}) st in
  status st' = Str ("Error: " ++ null_read_message) /\
  message st' = message st.
Proof.
  intros G st'. subst st'. rewrite (submit_ending _ _ G).
  cbn [ending_of ending_of_body json ok get_property]. split; reflexivity.
Qed.

(** X6.  A successful response whose [status] is missing or falsy
    clears the message field and shows no status paragraph: the page
    renders, and in place of the paragraph it shows nothing, except
    that a falsy number is printed as it is. *)
Theorem success_with_falsy_status_has_no_status_line
    (st : state) (data v : value) :
  passes_guard st ->
  get_property data "status" = Fulfilled v ->
  truthy v = false ->
  let st' :=
    submit (Fulfilled {| ok := true; json := Fulfilled data |}) st in
  status st' = v /\
  message st' = EmptyString /\
  exists page,
    render st' = Some page /\
    statusMessage page = match v with
                         | Num n => BareNumber n
                         | _ => NoStatus
                         end.
Proof.
  intros G Hg Hv st'. subst st'. rewrite (submit_ending _ _ G).
  cbn [ending_of ending_of_body json ok]. rewrite Hg.
  cbn [status message]. split; [reflexivity|]. split; [reflexivity|].
  unfold render. cbn [status]. rewrite Hv. cbn [andb].
  eexists. split; [reflexivity|]. cbn [statusMessage].
  unfold status_region. rewrite Hv. reflexivity.
Qed.

(** X7.  On a response that is not [ok], any missing or falsy [status]
    (absent, [null], [false], a falsy number, the empty string) is
    replaced by the generic text: the page shows
    [Error: An error occurred.]. *)
Theorem falsy_status_falls_back
    (st : state) (data v : value) :
  passes_guard st ->
  get_property data "status" = Fulfilled v ->
  truthy v = false ->
  status (submit (Fulfilled {| ok := false; json := Fulfilled data |}) st)
  = Str "Error: An error occurred.".
Proof.
  intros G Hg Hv. rewrite (submit_ending _ _ G).
  cbn [ending_of ending_of_body json ok]. rewrite Hg.
  unfold or_else. rewrite Hv. reflexivity.
Qed.

(** X8.  On a response that is not [ok], a truthy [status] that is not
    a string goes through the engine's conversion: the page shows
    [Error: ] followed by the converted text, or, if the conversion
    throws, what the [catch] clause shows for that exception. *)
Theorem non_string_status_is_converted
    (st : state) (data v : value) :
  passes_guard st ->
  get_property data "status" = Fulfilled v ->
  truthy v = true ->
  (forall s, v <> Str s) ->
  status (submit (Fulfilled {| ok := false; json := Fulfilled data |}) st)
  = match ToString_other v with
    | inr text => Str ("Error: " ++ text)
    | inl e => error_text e
    end.
Proof.
  intros G Hg Hv Hs. rewrite (submit_ending _ _ G).
  cbn [ending_of ending_of_body json ok]. rewrite Hg.
  unfold or_else. rewrite Hv.
  destruct v; cbn [new_Error]; try discriminate;
    try (destruct (ToString_other _); reflexivity).
  exfalso. apply (Hs s). reflexivity.
Qed.

(** X9.  After a success the form does not send again by itself: the
    message field is empty, so a further submit is turned away at the
    guard and makes no call but [preventDefault]. *)
Theorem resubmit_after_success_is_turned_away
    net (st : state) (data v : value) :
  passes_guard st ->
  get_property data "status" = Fulfilled v ->
  let st' :=
    submit (Fulfilled {| ok := true; json := Fulfilled data |}) st in
  run net (handleSubmit st') = ([preventDefault], Fulfilled tt).
Proof.
  intros G Hg st'. subst st'. rewrite (submit_ending _ _ G).
  cbn [ending_of ending_of_body json ok]. rewrite Hg.
  rewrite handleSubmit_closed; reflexivity.
Qed.

(** X10.  After a failure the form can be submitted again as it is:
    the state passes the guard, and the retry sends the request of the
    first attempt once more. *)
Theorem retry_after_failure_sends_same_request
    net (answer : settled response) (st : state) :
  passes_guard st ->
  is_failure answer = true ->
  passes_guard (submit answer st) /\
  requests (fst (run net (handleSubmit (submit answer st)))) =
  requests (submission_calls answer st).
Proof.
  intros G F.
  assert (G' : passes_guard (submit answer st)).
  { rewrite (submit_ending _ _ G).
    destruct (ending_of_failure _ F) as [e ->].
    destruct G as [Hm Hl]. split; [exact Hm | reflexivity]. }
  split; [exact G'|].
  rewrite (run_handleSubmit _ _ G'), (submission_calls_ending _ _ G).
  cbn [fst]. rewrite !requests_app. cbn [requests prologue app].
  rewrite !requests_ending.
  rewrite (submit_ending _ _ G).
  destruct (ending_of_failure _ F) as [e ->]. reflexivity.
Qed.

(** X11.  The request body determines the two fields: two states
    whose requests have the same body have the same username and the
    same message, whatever characters they hold. *)
Theorem request_body_determines_fields (st1 st2 : state) :
  body (fetch_init st1) = body (fetch_init st2) ->
  username st1 = username st2 /\ message st1 = message st2.
Proof.
  rewrite !fetch_init_body. unfold JSON_quote.
  rewrite !append_assoc. cbn [DQ append]. intros H.
  repeat (injection H as H).
  apply JSON_escape_all_cancel in H as [Hu H]. split; [exact Hu|].
  repeat (injection H as H).
  apply JSON_escape_all_cancel in H as [Hm _]. exact Hm.
Qed.

(** ** Further properties of the event loop *)

(** On a page that shows the current state with the in-flight flag up,
    a submit is turned away and a render changes nothing. *)
Lemma quiet_in_flight (w : world) (ev : event) :
  page w = Some (ui w) ->
  isLoading (ui w) = true ->
  renderable (status (ui w)) = true ->
  is_Submit_or_Render ev = true ->
  step w ev = w.
Proof.
  intros Hpage Hl Hr Hev. destruct ev; try discriminate.
  - apply (step_submit_closed _ _ Hpage). rewrite Hl. apply orb_true_r.
  - destruct (render_renderable _ Hr) as [v [Hv _]].
    rewrite (step_render_ok _ _ _ Hpage Hv), <- Hpage.
    destruct w; reflexivity.
Qed.

Lemma quiet_in_flight_steps (evs : list event) (w : world) :
  page w = Some (ui w) ->
  isLoading (ui w) = true ->
  renderable (status (ui w)) = true ->
  forallb is_Submit_or_Render evs = true ->
  steps w evs = w.
Proof.
  intros Hpage Hl Hr. induction evs as [|ev evs IH]; [reflexivity|].
  cbn [forallb]. intros H. apply andb_prop in H as [Hev Hevs].
  rewrite steps_cons, (quiet_in_flight _ _ Hpage Hl Hr Hev).
  apply IH, Hevs.
Qed.

(** X12.  When the page renders after every submit event, the controls
    follow the submission: in every world the event loop can reach, a
    render of the current state shows the submit button disabled if
    and only if a handler invocation is suspended at an [await], and
    the two inputs disabled exactly when the button is. *)
Theorem controls_disabled_iff_pending (w : world) (v : view) :
  reachable_flushed w ->
  render (ui w) = Some v ->
  (pending w <> [] <-> submitButton_disabled v = true) /\
  usernameInput_disabled v = submitButton_disabled v /\
  messageInput_disabled v = submitButton_disabled v.
Proof.
  intros Hr Hv.
  destruct (one_at_a_time_reachable _ Hr) as [_ [_ [Hiff _]]].
  destruct (render_some _ _ Hv) as [Hb [Hu [Hm _]]].
  rewrite Hb, Hu, Hm. split; [exact Hiff | split; reflexivity].
Qed.

(** X13.  When the page renders after every submit event, a pending
    submission is shown: the status text is [Sending...], and a render
    of the current state succeeds, shows that text in the status
    paragraph and shows the dots on the button. *)
Theorem pending_shows_sending (w : world) :
  reachable_flushed w ->
  pending w <> [] ->
  status (ui w) = Str "Sending..." /\
  exists v,
    render (ui w) = Some v /\
    statusMessage v = StatusLine (Str "Sending...") /\
    submitButton_dots v = true.
Proof.
  intros Hr Hp.
  destruct (one_at_a_time_reachable _ Hr) as [_ [_ [Hiff [Hst _]]]].
  pose proof (Hst Hp) as Hs. split; [exact Hs|].
  assert (Hren : renderable (status (ui w)) = true)
    by (rewrite Hs; reflexivity).
  destruct (render_renderable _ Hren) as [v [Hv [_ [_ [_ [Hd Hm]]]]]].
  exists v. split; [exact Hv|]. rewrite Hm, Hd, Hs.
  split; [reflexivity | apply Hiff, Hp].
Qed.

(** X14.  Everything the page ever sends is the same kind of request:
    under any interleaving of events, each request sent is a POST to
    the fixed URL with the one JSON content-type header. *)
Theorem sent_requests_are_posts (w : world) :
  reachable w -> Forall is_post_to_API (sent w).
Proof.
  revert w.
  apply (reachable_induction (fun w => Forall is_post_to_API (sent w))).
  - constructor.
  - intros w ev Ht IH.
    destruct (step_sends w ev Ht) as [_ [->|[_ [props [_ [_ ->]]]]]];
      [exact IH|].
    apply Forall_app. split; [exact IH|].
    constructor; [|constructor]. repeat split.
Qed.

Lemma sent_bounded (evs : list event) (w : world) :
  handler_tasks w ->
  length (sent (steps w evs)) <=
  length (sent w) + length (filter is_Submit evs).
Proof.
  revert w. induction evs as [|ev evs IH]; intros w Ht;
    [cbn; lia|].
  rewrite steps_cons.
  destruct (step_sends w ev Ht) as [Ht' Hs].
  specialize (IH (step w ev) Ht').
  assert (H1 : length (sent (step w ev)) <=
               length (sent w) + (if is_Submit ev then 1 else 0)).
  { destruct Hs as [->|[-> [props [_ [_ ->]]]]]; [lia|].
    rewrite length_app. cbn [length is_Submit]. lia. }
  cbn [filter]. destruct (is_Submit ev); cbn [length]; lia.
Qed.

(** X15.  The page never sends more requests than it was asked to:
    after any sequence of events from the fresh page, the number of
    requests sent is at most the number of submit events. *)
Theorem sent_at_most_submits (evs : list event) :
  length (sent (steps initial_world evs)) <= length (filter is_Submit evs).
Proof.
  apply (sent_bounded evs initial_world handler_tasks_initial).
Qed.

(** X16.  Once the page has rendered a submission, submitting again
    does not disturb it: from an idle page that passes the guard,
    after the submit and its render, whatever further submit and
    render events occur while the request is out and while the body
    is read, one request is sent and the state once the promises have
    settled is the one [submit] computes. *)
Theorem submission_undisturbed_by_resubmits
    (w : world) (answer : settled response) (during after : list event) :
  page w = Some (ui w) ->
  pending w = [] ->
  passes_guard (ui w) ->
  forallb is_Submit_or_Render during = true ->
  forallb is_Submit_or_Render after = true ->
  let final :=
    steps w
      (Submit :: Render :: during ++ FetchSettled 0 answer ::
         match answer with
         | Fulfilled _ => after ++ [JsonSettled 0]
         | Rejected _ => []
         end)%list in
  ui final = submit answer (ui w) /\
  sent final = (sent w ++ [(API_URL, fetch_init (ui w))])%list.
Proof.
  intros Hpage Hp G Hd Ha final. subst final.
  unfold submit. rewrite (submission_calls_ending _ _ G).
  rewrite steps_cons, (step_submit_open _ _ Hpage G), Hp, Hpage. cbn [app].
  rewrite steps_cons.
  erewrite step_render_ok by reflexivity.
  rewrite steps_app.
  rewrite (quiet_in_flight_steps during) by first [reflexivity | exact Hd].
  rewrite steps_cons.
  erewrite step_FetchSettled_head by reflexivity.
  rewrite deliver_after_fetch.
  destruct answer as [resp|e];
    cbn [without_task remove_nth pending ui page sent app].
  - rewrite steps_app.
    rewrite (quiet_in_flight_steps after) by first [reflexivity | exact Ha].
    rewrite steps_cons.
    erewrite step_JsonSettled_head by reflexivity.
    rewrite deliver_after_json.
    cbn [steps fold_left ui sent without_task ending_of].
    unfold apply_calls. rewrite !fold_left_app. split; reflexivity.
  - cbn [steps fold_left ui sent ending_of].
    unfold apply_calls. rewrite !fold_left_app. split; reflexivity.
Qed.

(** X17.  What the user typed is what is sent: on a mounted page whose
    status can be rendered and whose in-flight flag is down, typing a
    username and a non-empty message, each followed by its render,
    and then submitting sends one further request, whose body holds
    exactly that username and that message. *)
Theorem typed_fields_are_sent (w : world) (props : state) (u m : string) :
  page w = Some props ->
  renderable (status (ui w)) = true ->
  isLoading (ui w) = false ->
  m <> EmptyString ->
  exists init,
    sent (steps w [ChangeUsername u; Render; ChangeMessage m; Render;
                   Submit]) =
      (sent w ++ [(API_URL, init)])%list /\
    body init =
      "{" ++ DQ ++ "username" ++ DQ ++ ":" ++ JSON_quote u
      ++ "," ++ DQ ++ "message" ++ DQ ++ ":" ++ JSON_quote m ++ "}".
Proof.
  intros Hpage Hr Hl Hm.
  set (st := {| username := u; message := m; isLoading := false;
                status := status (ui w) |}).
  exists (fetch_init st). split; [|apply fetch_init_body].
  rewrite steps_cons.
  rewrite (step_change w _ (setUsername u) props Hpage)
    by (exists u; left; split; reflexivity).
  rewrite steps_cons.
  destruct (render_renderable (apply_call (ui w) (setUsername u)) Hr)
    as [v1 [Hv1 _]].
  rewrite (step_render_ok _ props v1) by first [exact Hpage | exact Hv1].
  rewrite steps_cons.
  erewrite (step_change _ _ (setMessage m))
    by first [reflexivity | exists m; right; split; reflexivity].
  rewrite steps_cons. cbn [ui page pending sent].
  destruct (render_renderable
              (apply_call (apply_call (ui w) (setUsername u)) (setMessage m))
              Hr) as [v2 [Hv2 _]].
  erewrite step_render_ok by first [reflexivity | exact Hv2].
  rewrite steps_cons. cbn [ui apply_call username message isLoading status].
  rewrite Hl. fold st.
  assert (G : passes_guard st) by (split; [exact Hm | reflexivity]).
  erewrite step_submit_open by first [reflexivity | exact G].
  reflexivity.
Qed.

End Engine.

(** ** Concrete runs *)

Arguments Build_state {number} username message isLoading status.
Arguments username {number} s.
Arguments message {number} s.
Arguments isLoading {number} s.
Arguments status {number} s.
Arguments Build_response {number} ok json.
Arguments Build_world {number} ui page pending sent.
Arguments ui {number} w.
Arguments page {number} w.
Arguments pending {number} w.
Arguments sent {number} w.
Arguments preventDefault {number}.
Arguments setIsLoading {number} b.
Arguments setStatus {number} v.
Arguments setMessage {number} s.
Arguments fetch {number} url init.
Arguments Submit {number}.
Arguments ChangeUsername {number} s.
Arguments ChangeMessage {number} s.
Arguments FetchSettled {number} i r.
Arguments JsonSettled {number} i.
Arguments Render {number}.
Arguments passes_guard {number} st.
Arguments lookup {number} key props.
Arguments requests {number} cs.
Arguments apply_calls {number} st cs.
Arguments advance {number} m.
Arguments run {number A} net m.
Arguments outstanding {number} w.
Arguments initial_world {number}.
Arguments initial_state {number}.
Arguments renderable {number} v.
Arguments submitButton_disabled {number} v.

Import IntegerEngine.

Local Abbreviation handleSubmit_Z :=
  (handleSubmit Z number_truthy ToString null_read_message).
Local Abbreviation submission_calls_Z :=
  (submission_calls Z number_truthy ToString null_read_message).
Local Abbreviation submit_Z :=
  (submit Z number_truthy ToString null_read_message).
Local Abbreviation step_Z :=
  (step Z number_truthy ToString null_read_message).
Local Abbreviation steps_Z :=
  (steps Z number_truthy ToString null_read_message).
Local Abbreviation reachable_Z :=
  (reachable Z number_truthy ToString null_read_message).
Local Abbreviation reachable_flushed_Z :=
  (reachable_flushed Z number_truthy ToString null_read_message).
Local Abbreviation render_Z := (render Z number_truthy).

(** A filled-in form with nothing in flight. *)
Local Abbreviation alice_hi :=
  {| username := "alice"; message := "hi"; isLoading := false;
     status := @Str Z EmptyString |}.

(** HTTP 200 with a body whose [status] is [Sent!]. *)
Lemma success_sent_witness :
  let props := [("status", @Str Z "Sent!")] in
  let st' :=
    submit_Z (Fulfilled {| ok := true; json := Fulfilled (Obj props) |})
      alice_hi in
  passes_guard alice_hi /\
  lookup "status" props = Str "Sent!" /\
  status st' = Str "Sent!" /\ message st' = EmptyString /\
  username st' = "alice".
Proof.
  split; [split; [discriminate | reflexivity]|].
  split; [reflexivity|].
  apply (success_shows_status_and_clears_message
           Z number_truthy ToString null_read_message alice_hi
           [("status", Str "Sent!")] "Sent!").
  - split; [discriminate | reflexivity].
  - reflexivity.
Defined.

(** HTTP 500 with a body whose [status] is the empty string: the page
    shows the generic message, not [Error: ] followed by the empty
    status. *)
Lemma http_error_empty_status_counterexample :
  let props := [("status", @Str Z EmptyString)] in
  let st' :=
    submit_Z (Fulfilled {| ok := false; json := Fulfilled (Obj props) |})
      alice_hi in
  passes_guard alice_hi /\
  lookup "status" props = Str EmptyString /\
  status st' = Str "Error: An error occurred." /\
  status st' <> Str ("Error: " ++ EmptyString).
Proof.
  split; [split; [discriminate | reflexivity]|].
  split; [reflexivity|]. split; [reflexivity | discriminate].
Qed.

(** HTTP 500 with a body whose [status] is [Rate limited]. *)
Lemma http_error_rate_limited_witness :
  let props := [("status", @Str Z "Rate limited")] in
  let st' :=
    submit_Z (Fulfilled {| ok := false; json := Fulfilled (Obj props) |})
      alice_hi in
  passes_guard alice_hi /\
  status st' = Str "Error: Rate limited" /\ message st' = "hi".
Proof.
  assert (G : passes_guard alice_hi) by (split; [discriminate | reflexivity]).
  split; [exact G|].
  destruct (http_error_shows_prefixed_status
              Z number_truthy ToString null_read_message alice_hi
              [("status", Str "Rate limited")] G) as [Hs [_ Hm]].
  split; [|exact Hm].
  apply (Hs "Rate limited"); [discriminate | reflexivity].
Defined.

(** The connection is refused: [fetch] rejects with a [TypeError]. *)
Lemma thrown_exception_witness :
  let answer := Rejected (@ErrorObject Z "Failed to fetch") in
  passes_guard alice_hi /\
  status (submit_Z answer alice_hi) = Str "Error: Failed to fetch".
Proof.
  split; [split; [discriminate | reflexivity]|].
  apply (thrown_exception_text
           Z number_truthy ToString null_read_message alice_hi
           (Rejected (ErrorObject "Failed to fetch"))
           (ErrorObject "Failed to fetch")).
  - split; [discriminate | reflexivity].
  - left. reflexivity.
Defined.

(** Submitting the freshly loaded page, whose message field is empty. *)
Lemma empty_message_witness :
  page (@initial_world Z) = Some initial_state /\
  message (@initial_state Z) = EmptyString /\
  step_Z initial_world Submit = initial_world.
Proof.
  split; [reflexivity|]. split; [reflexivity|].
  apply (empty_message_submit_is_noop
           Z number_truthy ToString null_read_message
           initial_world initial_state).
  - reflexivity.
  - reflexivity.
Defined.



(** HTTP 200 whose [status] is an object: the flag is cleared, but
    React cannot render the status and the page, button included, is
    gone. *)
Lemma in_flight_flag_cleared_counterexample :
  let answer :=
    Fulfilled {| ok := true;
                 json := Fulfilled
                           (Obj [("status", Obj [("a", Num 1%Z)])]) |} in
  passes_guard alice_hi /\
  isLoading (submit_Z answer alice_hi) = false /\
  render_Z (submit_Z answer alice_hi) = None.
Proof.
  split; [split; [discriminate | reflexivity]|].
  split; reflexivity.
Qed.

(** The body promise rejects with something that is not an [Error]. *)
Lemma in_flight_flag_cleared_witness :
  let answer :=
    Fulfilled {| ok := true; json := Rejected (@NonError Z Null) |} in
  passes_guard alice_hi /\
  is_failure Z answer = true /\
  isLoading (submit_Z answer alice_hi) = false /\
  exists v, render_Z (submit_Z answer alice_hi) = Some v /\
            submitButton_disabled v = false.
Proof.
  split; [split; [discriminate | reflexivity]|].
  split; [reflexivity|].
  destruct (in_flight_flag_cleared
              Z number_truthy ToString null_read_message alice_hi
              (Fulfilled {| ok := true; json := Rejected (NonError Null) |}))
    as [_ [Hl Hb]].
  - split; [discriminate | reflexivity].
  - split; [exact Hl|]. apply Hb. right. reflexivity.
Defined.

(** The request that carries [alice] and [hi]. *)
Lemma one_post_witness :
  let net := fun (_ : string) (_ : request_init) =>
               Rejected (@ErrorObject Z "Failed to fetch") in
  passes_guard alice_hi /\
  exists init,
    requests (fst (run net (handleSubmit_Z alice_hi))) =
      [("http://localhost:5000/send-dm", init)] /\
    method init = "POST" /\
    headers init = [("Content-Type", "application/json")] /\
    body init =
      "{" ++ DQ ++ "username" ++ DQ ++ ":" ++ DQ ++ "alice" ++ DQ
      ++ "," ++ DQ ++ "message" ++ DQ ++ ":" ++ DQ ++ "hi" ++ DQ ++ "}".
Proof.
  split; [split; [discriminate | reflexivity]|].
  apply (one_post_with_json_body
           Z number_truthy ToString null_read_message
           (fun _ _ => Rejected (ErrorObject "Failed to fetch")) alice_hi).
  split; [discriminate | reflexivity].
Defined.

(** The status text after the synchronous part is [Sending...], with
    its capital and its dots; it is not the text [sending]. *)
Lemma status_sending_counterexample :
  let shown :=
    status (apply_calls alice_hi (fst (advance (handleSubmit_Z alice_hi)))) in
  passes_guard alice_hi /\
  shown = Str "Sending..." /\ shown <> Str "sending".
Proof.
  split; [split; [discriminate | reflexivity]|].
  split; [reflexivity | discriminate].
Qed.

(** The status text through a successful submission: [Sending...],
    then what the server answered. *)
Lemma status_sending_witness :
  let answer :=
    Fulfilled {| ok := true;
                 json := Fulfilled (Obj [("status", @Str Z "Sent!")]) |} in
  passes_guard alice_hi /\
  status (apply_calls alice_hi (fst (advance (handleSubmit_Z alice_hi)))) =
    Str "Sending..." /\
  exists v rest,
    submission_calls_Z answer alice_hi =
      ([preventDefault; setIsLoading true; setStatus (Str "Sending...");
        fetch "http://localhost:5000/send-dm" (fetch_init Z alice_hi);
        setStatus v] ++ rest)%list /\
    status (submit_Z answer alice_hi) = v.
Proof.
  assert (G : passes_guard alice_hi) by (split; [discriminate | reflexivity]).
  split; [exact G|].
  destruct (status_sending_then_overwritten
              Z number_truthy ToString null_read_message alice_hi
              (Fulfilled {| ok := true;
                            json := Fulfilled (Obj [("status", Str "Sent!")]) |})
              G) as [_ [Hs [v [rest [Hc [Hv _]]]]]].
  split; [exact Hs|]. exists v, rest. split; [exact Hc | exact Hv].
Defined.

(** A body that does not parse, on a 500 and on a 200. *)
Lemma parse_failure_witness :
  let unparsed o :=
    Fulfilled {| ok := o;
                 json := Rejected (@ErrorObject Z "Unexpected token") |} in
  passes_guard alice_hi /\
  submit_Z (unparsed false) alice_hi = submit_Z (unparsed true) alice_hi /\
  status (submit_Z (unparsed false) alice_hi) =
    Str "Error: Unexpected token".
Proof.
  assert (G : passes_guard alice_hi) by (split; [discriminate | reflexivity]).
  split; [exact G|].
  destruct (parse_failure_precedes_status_check
              Z number_truthy ToString null_read_message alice_hi
              (ErrorObject "Unexpected token") false true G) as [_ [He Hs]].
  split; [exact He | exact Hs].
Defined.

(** A message typed into the fresh page, the username left empty. *)
Lemma empty_username_witness :
  let w := steps_Z initial_world [ChangeMessage "hi"; Render] in
  let props :=
    {| username := EmptyString; message := "hi"; isLoading := false;
       status := @Str Z EmptyString |} in
  page w = Some props /\
  username props = EmptyString /\ message props <> EmptyString /\
  isLoading props = false /\
  exists init,
    sent (step_Z w Submit) =
      (sent w ++ [("http://localhost:5000/send-dm", init)])%list /\
    method init = "POST" /\
    body init =
      "{" ++ DQ ++ "username" ++ DQ ++ ":" ++ DQ ++ DQ
      ++ "," ++ DQ ++ "message" ++ DQ ++ ":" ++ DQ ++ "hi" ++ DQ ++ "}".
Proof.
  split; [reflexivity|]. split; [reflexivity|]. split; [discriminate|].
  split; [reflexivity|].
  apply (empty_username_still_submits
           Z number_truthy ToString null_read_message
           (steps_Z initial_world [ChangeMessage "hi"; Render])
           {| username := EmptyString; message := "hi"; isLoading := false;
              status := Str EmptyString |}).
  - reflexivity.
  - reflexivity.
  - discriminate.
  - reflexivity.
Defined.

(** ** Concrete runs of the further properties *)

Arguments get_property {number} null_read_message v key.
Arguments is_failure {number} answer.
Arguments is_Submit_or_Render {number} ev.
Arguments is_Submit {number} ev.
Arguments statusMessage {number} v.
Arguments submitButton_dots {number} v.
Arguments usernameInput_disabled {number} v.
Arguments messageInput_disabled {number} v.
Arguments fetch_init {number} props.

(** The world of a filled-in form with nothing in flight, and the
    world once that form has been typed into the fresh page and
    submitted. *)
Local Abbreviation alice_idle :=
  {| ui := alice_hi; page := Some alice_hi; pending := []; sent := [] |}.
Local Abbreviation hi_in_flight :=
  (steps_Z initial_world [ChangeMessage "hi"; Render; Submit; Render]).
Local Abbreviation sent_ok :=
  (Fulfilled {| ok := true;
                json := Fulfilled (Obj [("status", @Str Z "Sent!")]) |}).
Local Abbreviation rate_limited :=
  (Fulfilled {| ok := false;
                json := Fulfilled (Obj [("status", @Str Z "Rate limited")]) |}).

Local Ltac guard_passes := split; [discriminate | reflexivity].
Local Ltac in_flight_reached :=
  exists [ChangeMessage "hi"; Render; Submit]; reflexivity.
Local Ltac in_flight_reached_anyhow :=
  exists [ChangeMessage "hi"; Render; Submit; Render]; reflexivity.

(** A success empties the message [hi]. *)
Lemma message_changes_witness :
  message (submit_Z sent_ok alice_hi) <> message alice_hi /\
  exists resp data v,
    sent_ok = @Fulfilled Z _ resp /\ ok Z resp = true /\
    json Z resp = Fulfilled data /\
    get_property null_read_message data "status" = Fulfilled v /\
    message (submit_Z sent_ok alice_hi) = EmptyString /\
    status (submit_Z sent_ok alice_hi) = v.
Proof.
  split; [discriminate|].
  apply (message_changes_only_on_success
           Z number_truthy ToString null_read_message sent_ok alice_hi).
  discriminate.
Defined.

(** HTTP 500 with [Rate limited]. *)
Lemma failure_is_shown_witness :
  passes_guard alice_hi /\ is_failure rate_limited = true /\
  exists text v,
    text <> EmptyString /\
    status (submit_Z rate_limited alice_hi) = Str text /\
    render_Z (submit_Z rate_limited alice_hi) = Some v /\
    statusMessage v = StatusLine Z (Str text) /\
    message (submit_Z rate_limited alice_hi) = message alice_hi /\
    isLoading (submit_Z rate_limited alice_hi) = false.
Proof.
  split; [guard_passes|]. split; [reflexivity|].
  apply (failure_is_shown_and_keeps_message
           Z number_truthy ToString null_read_message rate_limited alice_hi).
  - guard_passes.
  - reflexivity.
Defined.

(** HTTP 200 whose body is [null]. *)
Lemma null_body_witness :
  let st' :=
    submit_Z (Fulfilled {| ok := true; json := Fulfilled Null |}) alice_hi in
  passes_guard alice_hi /\
  status st' =
    Str "Error: Cannot read properties of null (reading 'status')" /\
  message st' = "hi".
Proof.
  split; [guard_passes|].
  apply (null_body_is_an_error
           Z number_truthy ToString null_read_message alice_hi true).
  guard_passes.
Defined.

(** HTTP 200 whose [status] is the number 0. *)
Lemma falsy_status_success_witness :
  let data := Obj [("status", Num 0%Z)] in
  let st' :=
    submit_Z (Fulfilled {| ok := true; json := Fulfilled data |}) alice_hi in
  passes_guard alice_hi /\
  get_property null_read_message data "status" = Fulfilled (Num 0%Z) /\
  truthy Z number_truthy (Num 0%Z) = false /\
  status st' = Num 0%Z /\ message st' = EmptyString /\
  exists page,
    render_Z st' = Some page /\ statusMessage page = BareNumber Z 0%Z.
Proof.
  split; [guard_passes|]. split; [reflexivity|]. split; [reflexivity|].
  apply (success_with_falsy_status_has_no_status_line
           Z number_truthy ToString null_read_message alice_hi
           (Obj [("status", Num 0%Z)]) (Num 0%Z)).
  - guard_passes.
  - reflexivity.
  - reflexivity.
Defined.

(** HTTP 500 whose [status] is [null]. *)
Lemma falsy_status_witness :
  let data := Obj [("status", @Null Z)] in
  passes_guard alice_hi /\
  get_property null_read_message data "status" = Fulfilled Null /\
  truthy Z number_truthy Null = false /\
  status (submit_Z (Fulfilled {| ok := false; json := Fulfilled data |})
            alice_hi)
  = Str "Error: An error occurred.".
Proof.
  split; [guard_passes|]. split; [reflexivity|].
  split; [reflexivity|].
  apply (falsy_status_falls_back
           Z number_truthy ToString null_read_message alice_hi
           (Obj [("status", Null)]) Null).
  - guard_passes.
  - reflexivity.
  - reflexivity.
Defined.

(** HTTP 429 whose [status] is the number 429. *)
Lemma non_string_status_witness :
  let data := Obj [("status", Num 429%Z)] in
  passes_guard alice_hi /\
  get_property null_read_message data "status" = Fulfilled (Num 429%Z) /\
  truthy Z number_truthy (Num 429%Z) = true /\
  (forall s, Num 429%Z <> Str s) /\
  status (submit_Z (Fulfilled {| ok := false; json := Fulfilled data |})
            alice_hi)
  = Str "Error: 429".
Proof.
  split; [guard_passes|]. split; [reflexivity|].
  split; [reflexivity|]. split; [discriminate|].
  apply (non_string_status_is_converted
           Z number_truthy ToString null_read_message alice_hi
           (Obj [("status", Num 429%Z)]) (Num 429%Z)).
  - guard_passes.
  - reflexivity.
  - reflexivity.
  - discriminate.
Defined.

(** Submitting again right after [Sent!]. *)
Lemma resubmit_after_success_witness :
  let net := fun (_ : string) (_ : request_init) => sent_ok in
  passes_guard alice_hi /\
  get_property null_read_message (Obj [("status", @Str Z "Sent!")]) "status"
    = Fulfilled (Str "Sent!") /\
  run net (handleSubmit_Z (submit_Z sent_ok alice_hi)) =
    ([preventDefault], Fulfilled tt).
Proof.
  split; [guard_passes|]. split; [reflexivity|].
  apply (resubmit_after_success_is_turned_away
           Z number_truthy ToString null_read_message
           (fun _ _ => sent_ok) alice_hi
           (Obj [("status", Str "Sent!")]) (Str "Sent!")).
  - guard_passes.
  - reflexivity.
Defined.

(** Submitting again after [Rate limited]. *)
Lemma retry_after_failure_witness :
  let net := fun (_ : string) (_ : request_init) => sent_ok in
  passes_guard alice_hi /\ is_failure rate_limited = true /\
  passes_guard (submit_Z rate_limited alice_hi) /\
  requests (fst (run net (handleSubmit_Z (submit_Z rate_limited alice_hi)))) =
  requests (submission_calls_Z rate_limited alice_hi).
Proof.
  split; [guard_passes|]. split; [reflexivity|].
  apply (retry_after_failure_sends_same_request
           Z number_truthy ToString null_read_message
           (fun _ _ => sent_ok) rate_limited alice_hi).
  - guard_passes.
  - reflexivity.
Defined.

(** The form before and while its request is out: same body. *)
Lemma request_body_witness :
  let sending :=
    {| username := "alice"; message := "hi"; isLoading := true;
       status := @Str Z "Sending..." |} in
  body (fetch_init alice_hi) = body (fetch_init sending) /\
  username alice_hi = username sending /\
  message alice_hi = message sending.
Proof.
  split; [reflexivity|].
  apply (request_body_determines_fields Z alice_hi
           {| username := "alice"; message := "hi"; isLoading := true;
              status := Str "Sending..." |}).
  reflexivity.
Defined.

(** The controls while [hi] is being sent. *)
Lemma controls_disabled_witness :
  reachable_flushed_Z hi_in_flight /\
  exists v,
    render_Z (ui hi_in_flight) = Some v /\
    (pending hi_in_flight <> [] <-> submitButton_disabled v = true) /\
    usernameInput_disabled v = submitButton_disabled v /\
    messageInput_disabled v = submitButton_disabled v.
Proof.
  split; [in_flight_reached|].
  eexists. split; [reflexivity|].
  apply (controls_disabled_iff_pending
           Z number_truthy ToString null_read_message hi_in_flight).
  - in_flight_reached.
  - reflexivity.
Defined.

(** The status line while [hi] is being sent. *)
Lemma pending_shows_sending_witness :
  reachable_flushed_Z hi_in_flight /\ pending hi_in_flight <> [] /\
  status (ui hi_in_flight) = Str "Sending..." /\
  exists v,
    render_Z (ui hi_in_flight) = Some v /\
    statusMessage v = StatusLine Z (Str "Sending...") /\
    submitButton_dots v = true.
Proof.
  split; [in_flight_reached|]. split; [discriminate|].
  apply (pending_shows_sending
           Z number_truthy ToString null_read_message hi_in_flight).
  - in_flight_reached.
  - discriminate.
Defined.

(** The one request sent for [hi]. *)
Lemma sent_requests_witness :
  reachable_Z hi_in_flight /\
  length (sent hi_in_flight) = 1 /\
  Forall is_post_to_API (sent hi_in_flight).
Proof.
  split; [in_flight_reached_anyhow|]. split; [reflexivity|].
  apply (sent_requests_are_posts
           Z number_truthy ToString null_read_message hi_in_flight).
  in_flight_reached_anyhow.
Defined.

(** The user clicks again, twice, while [Sent!] is on its way. *)
Lemma submission_undisturbed_witness :
  let during := [Submit; Render; Submit] in
  let after := [Submit; Render] in
  let final :=
    steps_Z alice_idle
      (Submit :: Render :: during ++ FetchSettled 0 sent_ok ::
         after ++ [JsonSettled 0])%list in
  page alice_idle = Some (ui alice_idle) /\
  pending alice_idle = [] /\ passes_guard (ui alice_idle) /\
  forallb is_Submit_or_Render during = true /\
  forallb is_Submit_or_Render after = true /\
  ui final =
    {| username := "alice"; message := EmptyString; isLoading := false;
       status := Str "Sent!" |} /\
  length (sent final) = 1.
Proof.
  split; [reflexivity|]. split; [reflexivity|]. split; [guard_passes|].
  split; [reflexivity|]. split; [reflexivity|].
  destruct (submission_undisturbed_by_resubmits
              Z number_truthy ToString null_read_message alice_idle sent_ok
              [Submit; Render; Submit] [Submit; Render])
    as [Hu Hs].
  - reflexivity.
  - reflexivity.
  - guard_passes.
  - reflexivity.
  - reflexivity.
  - split; [exact Hu | reflexivity].
Defined.

(** Typing [alice] and [hi] into the fresh page and submitting. *)
Lemma typed_fields_witness :
  page (@initial_world Z) = Some initial_state /\
  renderable (status (ui (@initial_world Z))) = true /\
  isLoading (ui (@initial_world Z)) = false /\
  "hi" <> EmptyString /\
  exists init,
    sent (steps_Z initial_world
            [ChangeUsername "alice"; Render; ChangeMessage "hi"; Render;
             Submit]) =
      [("http://localhost:5000/send-dm", init)] /\
    body init =
      "{" ++ DQ ++ "username" ++ DQ ++ ":" ++ DQ ++ "alice" ++ DQ
      ++ "," ++ DQ ++ "message" ++ DQ ++ ":" ++ DQ ++ "hi" ++ DQ ++ "}".
Proof.
  split; [reflexivity|]. split; [reflexivity|]. split; [reflexivity|].
  split; [discriminate|].
  apply (typed_fields_are_sent
           Z number_truthy ToString null_read_message initial_world
           initial_state "alice" "hi").
  - reflexivity.
  - reflexivity.
  - reflexivity.
  - discriminate.
Defined.
